(** * fix_hebrew.py: detection and repair of reversed Hebrew text

    A shallow embedding of [src/fix_hebrew.py] and the properties of its
    classifier ([is_reversed_hebrew]), its transformer ([fix_question]) and
    its driver ([main]).

    Python strings are sequences of Unicode code points, and [text[::-1]]
    reverses code points, not bytes; a string is therefore a list of code
    points.  Values loaded by [json.load] are dynamically typed, so the
    functions are embedded over a type of JSON values and return either a
    result or the exception Python raises. *)

From Stdlib Require Import String Ascii List NArith ZArith Bool Lia.
From Stdlib Require Import Floats.SpecFloat DecimalString.
Import ListNotations.

Set Implicit Arguments.

(** ** Strings *)

(** A Unicode code point. *)
Definition char := N.
(** A Python [str]. *)
Definition pystr := list char.

(** String literals are written in the file as they are in the source and
    decoded from UTF-8 to code points. *)
Fixpoint utf8_decode (acc : N) (k : nat) (bs : list N) : pystr :=
  match bs with
  | [] => []
  | b :: r =>
      match k with
      | O =>
          if (b <? 128)%N then b :: utf8_decode 0%N 0 r
          else if (b <? 224)%N then utf8_decode (b - 192)%N 1 r
          else if (b <? 240)%N then utf8_decode (b - 224)%N 2 r
          else utf8_decode (b - 240)%N 3 r
      | S O => (acc * 64 + (b - 128))%N :: utf8_decode 0%N 0 r
      | S k' => utf8_decode (acc * 64 + (b - 128))%N k' r
      end
  end.

Definition lit (s : string) : pystr :=
  utf8_decode 0%N 0 (map N_of_ascii (list_ascii_of_string s)).
Arguments lit s%_string.

Fixpoint str_eqb (a b : pystr) : bool :=
  match a, b with
  | [], [] => true
  | x :: a', y :: b' => (x =? y)%N && str_eqb a' b'
  | _, _ => false
  end.

(** [s.startswith(p)] *)
Fixpoint starts_with (p s : pystr) : bool :=
  match p, s with
  | [], _ => true
  | x :: p', y :: s' => (x =? y)%N && starts_with p' s'
  | _ :: _, [] => false
  end.

(** [p in s] for two strings: [p] occurs in [s] as a substring. *)
Fixpoint str_in (p s : pystr) : bool :=
  starts_with p s ||
  match s with
  | [] => false
  | _ :: s' => str_in p s'
  end.

(** [str.isspace] on one character, the characters [str.strip()] removes. *)
Definition is_space (c : char) : bool :=
  ((9 <=? c) && (c <=? 13) || (28 <=? c) && (c <=? 32)
   || (c =? 133) || (c =? 160) || (c =? 5760)
   || (8192 <=? c) && (c <=? 8202)
   || (c =? 8232) || (c =? 8233) || (c =? 8239) || (c =? 8287)
   || (c =? 12288))%N.

Fixpoint lstrip (s : pystr) : pystr :=
  match s with
  | [] => []
  | c :: r => if is_space c then lstrip r else s
  end.

Definition rstrip (s : pystr) : pystr := rev (lstrip (rev s)).

(** [s.strip()] *)
Definition strip (s : pystr) : pystr := rstrip (lstrip s).

(** ** The regular expression [r'תעב[?.!]?$']

    [re.search] succeeds when the pattern matches at some position.  Without
    [re.MULTILINE] the anchor [$] matches at the end of the string and just
    before a newline that is the last character. *)

Definition during_reversed : pystr := lit "תעב".

(** [$] *)
Definition at_end (s : pystr) : bool :=
  match s with
  | [] => true
  | [c] => (c =? 10)%N
  | _ => false
  end.

(** the class [[?.!]] *)
Definition is_terminal_punct (c : char) : bool :=
  ((c =? 63) || (c =? 46) || (c =? 33))%N.

(** [[?.!]?$]: the optional character is tried first, then skipped. *)
Definition match_tail (s : pystr) : bool :=
  match s with
  | c :: r => (is_terminal_punct c && at_end r) || at_end s
  | [] => at_end s
  end.

(** the whole pattern, anchored at the start of [s] *)
Definition match_here (s : pystr) : bool :=
  starts_with during_reversed s &&
  match_tail (skipn (length during_reversed) s).

(** [re.search(r'תעב[?.!]?$', s)] is not [None] *)
Fixpoint re_search_during (s : pystr) : bool :=
  match_here s ||
  match s with
  | [] => false
  | _ :: s' => re_search_during s'
  end.

(** ** JSON values and exceptions *)

#[warnings="-register-all"]
Inductive value : Type :=
| VNone
| VBool (b : bool)
| VInt (z : Z)
| VFloat (f : spec_float)
| VStr (s : pystr)
| VList (l : list value)
| VDict (d : list (pystr * value)).

(** A dict keeps its keys in insertion order; a record of the data set is
    the dict of one question. *)
Definition record := list (pystr * value).

(** The exceptions the program can raise.  [SliceOfDict] is what [d[::-1]]
    raises on a dict [d]: a [TypeError] (unhashable slice) before Python
    3.12 and a [KeyError] on the slice object from 3.12 on.
    [UnicodeEncodeError] is raised by the write of a string that UTF-8
    cannot encode, [JSONDecodeError] by [json.load] on a text that is not
    JSON. *)
Inductive exn : Type :=
| KeyError (k : pystr)
| TypeError
| AttributeError
| SliceOfDict
| UnicodeEncodeError
| JSONDecodeError.

Inductive result (A : Type) : Type :=
| Ok (a : A)
| Err (e : exn).
Arguments Ok {A} a.
Arguments Err {A} e.

Definition bind {A B} (m : result A) (f : A -> result B) : result B :=
  match m with
  | Ok a => f a
  | Err e => Err e
  end.

Notation "x <- m ;; k" := (bind m (fun x => k))
  (at level 61, m at next level, right associativity).

Fixpoint mapM {A B} (f : A -> result B) (l : list A) : result (list B) :=
  match l with
  | [] => Ok []
  | x :: r => y <- f x ;; ys <- mapM f r ;; Ok (y :: ys)
  end.

Fixpoint foldM {A S} (f : S -> A -> result S) (st : S) (l : list A) : result S :=
  match l with
  | [] => Ok st
  | x :: r => st' <- f st x ;; foldM f st' r
  end.

(** [bool(v)] *)
Definition truthy (v : value) : bool :=
  match v with
  | VNone => false
  | VBool b => b
  | VInt z => negb (z =? 0)%Z
  | VFloat (S754_zero _) => false
  | VFloat _ => true
  | VStr s => negb (str_eqb s [])
  | VList l => match l with [] => false | _ => true end
  | VDict d => match d with [] => false | _ => true end
  end.

(** [pattern == v] for a string [pattern] *)
Definition eq_str (pattern : pystr) (v : value) : bool :=
  match v with
  | VStr s => str_eqb pattern s
  | _ => false
  end.

(** [pattern in text]: substring test on a string, membership on a list,
    key membership on a dict, and a [TypeError] on anything else. *)
Definition py_in (pattern : pystr) (text : value) : result bool :=
  match text with
  | VStr s => Ok (str_in pattern s)
  | VList l => Ok (existsb (eq_str pattern) l)
  | VDict d => Ok (existsb (fun kv => str_eqb pattern (fst kv)) d)
  | _ => Err TypeError
  end.

(** [text.strip()] *)
Definition py_strip (text : value) : result pystr :=
  match text with
  | VStr s => Ok (strip s)
  | _ => Err AttributeError
  end.

(** [for v in x]: the elements of a list, the keys of a dict, the
    characters of a string. *)
Definition py_iter (x : value) : result (list value) :=
  match x with
  | VList l => Ok l
  | VDict d => Ok (map (fun kv => VStr (fst kv)) d)
  | VStr s => Ok (map (fun c => VStr [c]) s)
  | _ => Err TypeError
  end.

(** ** reverse_hebrew *)

(** [text[::-1]] *)
Definition reverse_hebrew (text : value) : result value :=
  match text with
  | VStr s => Ok (VStr (rev s))
  | VList l => Ok (VList (rev l))
  | VDict _ => Err SliceOfDict
  | _ => Err TypeError
  end.

(** ** is_reversed_hebrew *)

Definition reversed_patterns : list pystr :=
  [ lit " המ ";
    lit " המ,";
    lit ",המ ";
    lit "המ?";
    lit " ימ ";
    lit " ךיא ";
    lit " םאה ";
    lit "ןיחבמ";
    lit "תניפס";
    lit "תישרפמ";
    lit "ךמוטרח";
    lit "הגלפה" ].

Definition correct_patterns : list pystr :=
  [ lit "מה ";
    lit "מי ";
    lit "איך ";
    lit "האם ";
    lit "הינך";
    lit "בעת ";
    lit "כאשר" ].

(** [for pattern in patterns: if pattern in text: return ...]: whether the
    loop reaches its [return]. *)
Fixpoint any_in (patterns : list pystr) (text : value) : result bool :=
  match patterns with
  | [] => Ok false
  | pattern :: rest =>
      found <- py_in pattern text ;;
      if found then Ok true else any_in rest text
  end.

Definition is_reversed_hebrew (text : value) : result bool :=
  if negb (truthy text) then Ok false
  else
    correct <- any_in correct_patterns text ;;
    if correct then Ok false
    else
      reversed <- any_in reversed_patterns text ;;
      if reversed then Ok true
      else
        stripped <- py_strip text ;;
        if re_search_during stripped then Ok true else Ok false.

(** ** Dicts *)

(** the value stored under [k], if any *)
Fixpoint dict_get (k : pystr) (d : record) : option value :=
  match d with
  | [] => None
  | (k', v) :: r => if str_eqb k k' then Some v else dict_get k r
  end.

(** [k in d] *)
Definition dict_mem (k : pystr) (d : record) : bool :=
  match dict_get k d with
  | Some _ => true
  | None => false
  end.

(** [d[k]] *)
Definition getitem (d : record) (k : pystr) : result value :=
  match dict_get k d with
  | Some v => Ok v
  | None => Err (KeyError k)
  end.

(** [d.get(k, default)] *)
Definition get_default (d : record) (k : pystr) (default : value) : value :=
  match dict_get k d with
  | Some v => v
  | None => default
  end.

(** [d[k] = v]: an existing key keeps its position, a new key goes last. *)
Fixpoint dict_set (k : pystr) (v : value) (d : record) : record :=
  match d with
  | [] => [(k, v)]
  | (k', v') :: r =>
      if str_eqb k k' then (k', v) :: r else (k', v') :: dict_set k v r
  end.

(** ** fix_question *)

Definition fix_question (question : record) : result record :=
  let fixed := question in
  text <- getitem question (lit "text") ;;
  text' <- reverse_hebrew text ;;
  let fixed := dict_set (lit "text") text' fixed in
  options <- getitem question (lit "options") ;;
  opts <- py_iter options ;;
  opts' <- mapM reverse_hebrew opts ;;
  let fixed := dict_set (lit "options") (VList opts') fixed in
  if dict_mem (lit "category") question then
    category <- getitem question (lit "category") ;;
    category' <- reverse_hebrew category ;;
    Ok (dict_set (lit "category") category' fixed)
  else Ok fixed.

(** ** main *)

(** The three accumulators of the loop. *)
Record loop_state : Type := mk_loop_state {
  fixed_count : nat;
  fixed_questions : list value;
  fixed_ids : list value
}.

Definition loop_init : loop_state := mk_loop_state 0 [] [].

(** One iteration of [for q in questions].  [q.get] exists on dicts only. *)
Definition loop_body (st : loop_state) (q : value) : result loop_state :=
  match q with
  | VDict d =>
      reversed <- is_reversed_hebrew (get_default d (lit "text") (VStr [])) ;;
      if reversed then
        fixed <- fix_question d ;;
        let questions' := fixed_questions st ++ [VDict fixed] in
        let count' := S (fixed_count st) in
        id <- getitem d (lit "id") ;;
        Ok (mk_loop_state count' questions' (fixed_ids st ++ [id]))
      else
        Ok (mk_loop_state (fixed_count st) (fixed_questions st ++ [q])
              (fixed_ids st))
  | _ => Err AttributeError
  end.

Definition run_loop (questions : list value) : result loop_state :=
  foldM loop_body loop_init questions.

(** A printed line is an f-string: literal text and formatted values. *)
Inductive piece : Type :=
| Lit (s : pystr)
| Fmt (v : value).

Definition line := list piece.

(** The text of the data file: the serialisation of a JSON value or, after
    a write that stopped part-way, a text cut short, which is not JSON any
    more. *)
Inductive contents : Type :=
| Json (v : value)
| Truncated.

Coercion Json : value >-> contents.

(** The data file and the lines printed so far. *)
Record world : Type := mk_world {
  file : contents;
  stdout : list line
}.

(** A surrogate code point: a string that holds one has no UTF-8
    encoding, although [json.load] reads it from an escape. *)
Definition is_surrogate (c : char) : bool :=
  ((55296 <=? c) && (c <=? 57343))%N.

Definition str_encodable (s : pystr) : bool :=
  forallb (fun c => negb (is_surrogate c)) s.

(** [json.dump(v, f, ensure_ascii=False)] writes every string and every
    key of [v] to the UTF-8 file as it is: the write goes through when all
    of them can be encoded. *)
Fixpoint encodable (v : value) : bool :=
  match v with
  | VStr s => str_encodable s
  | VList l => forallb encodable l
  | VDict d =>
      forallb (fun kv => let '(k, x) := kv in str_encodable k && encodable x) d
  | _ => true
  end.

Definition summary_line (st : loop_state) (total : nat) : line :=
  [Lit (lit "Fixed "); Fmt (VInt (Z.of_nat (fixed_count st)));
   Lit (lit " questions out of "); Fmt (VInt (Z.of_nat total))].

Definition ids_line (st : loop_state) : line :=
  if 20 <? List.length (fixed_ids st) then
    [Lit (lit "Fixed IDs: "); Fmt (VList (firstn 20 (fixed_ids st)));
     Lit (lit "...")]
  else
    [Lit (lit "Fixed IDs: "); Fmt (VList (fixed_ids st))].

(** [json.load] fails on a file that is not JSON.  An exception raised in
    the loop stops the run before the file is opened for writing.  After
    the loop [open(..., 'w')] empties the file and [json.dump] writes the
    list piece by piece: a string that cannot be encoded stops it with the
    file cut short and nothing printed; otherwise the file holds the new
    list and the two lines are printed.  The terminal is taken to accept
    every character of the two lines ([repr] escapes a lone surrogate in
    an id), and the limits of the interpreter (recursion depth, memory) are
    left out. *)
Definition main (w : world) : world * option exn :=
  match file w with
  | Truncated => (w, Some JSONDecodeError)
  | Json questions =>
      match (qs <- py_iter questions ;; st <- run_loop qs ;; Ok (qs, st)) with
      | Err e => (w, Some e)
      | Ok (qs, st) =>
          if encodable (VList (fixed_questions st)) then
            (mk_world (Json (VList (fixed_questions st)))
               (stdout w ++ [summary_line st (List.length qs); ids_line st]),
             None)
          else (mk_world Truncated (stdout w), Some UnicodeEncodeError)
      end
  end.

(** The text of a line, for lines that format integers and lists of
    integers only. *)
Definition str_of_int (z : Z) : pystr :=
  map N_of_ascii (list_ascii_of_string (NilZero.string_of_int (Z.to_int z))).

Fixpoint join_ints (l : list value) : option pystr :=
  match l with
  | [] => Some []
  | [VInt z] => Some (str_of_int z)
  | VInt z :: r =>
      match join_ints r with
      | Some s => Some (str_of_int z ++ lit ", " ++ s)
      | None => None
      end
  | _ => None
  end.

Definition render_piece (p : piece) : option pystr :=
  match p with
  | Lit s => Some s
  | Fmt (VInt z) => Some (str_of_int z)
  | Fmt (VList l) =>
      match join_ints l with
      | Some s => Some (lit "[" ++ s ++ lit "]")
      | None => None
      end
  | Fmt _ => None
  end.

Fixpoint render (l : line) : option pystr :=
  match l with
  | [] => Some []
  | p :: r =>
      match render_piece p, render r with
      | Some a, Some b => Some (a ++ b)
      | _, _ => None
      end
  end.

(** ** The data model

    A question has a string [text], a list of strings [options] and, when
    it has a [category], a string there; in a collection every question
    also has an [id]. *)

Definition is_str (v : value) : bool :=
  match v with
  | VStr _ => true
  | _ => false
  end.

Definition is_str_list (v : value) : bool :=
  match v with
  | VList l => forallb is_str l
  | _ => false
  end.

Definition well_formed_question (q : record) : bool :=
  match dict_get (lit "text") q, dict_get (lit "options") q with
  | Some t, Some o =>
      is_str t && is_str_list o &&
      match dict_get (lit "category") q with
      | Some c => is_str c
      | None => true
      end
  | _, _ => false
  end.

Definition well_formed_record (q : value) : bool :=
  match q with
  | VDict d => well_formed_question d && dict_mem (lit "id") d
  | _ => false
  end.

(** the fields [fix_question] assigns *)
Definition touched (k : pystr) : bool :=
  str_eqb k (lit "text") || str_eqb k (lit "options") ||
  str_eqb k (lit "category").

(** [q'] has the keys of [q] in the same order, and the same value under
    every key [fix_question] does not assign. *)
Definition same_frame (q q' : record) : Prop :=
  Forall2 (fun kv kv' =>
             fst kv = fst kv' /\ (touched (fst kv) = false -> snd kv = snd kv'))
          q q'.

(** the classification the driver makes of a record *)
Definition classify (d : record) : result bool :=
  is_reversed_hebrew (get_default d (lit "text") (VStr [])).

(** A question whose text reads the same in both directions and holds the
    reversed marker for "sailing". *)
Definition palindrome_question : record :=
  [ (lit "id", VInt 7);
    (lit "text", VStr (lit "הגלפהפלגה"));
    (lit "options", VList []) ].

(** A question of the data model with a field the program does not know. *)
Definition sample_question : record :=
  [ (lit "id", VInt 3);
    (lit "text", VStr (lit " המ תניפס?"));
    (lit "image", VStr (lit "boat.png"));
    (lit "options", VList [VStr (lit "א ב"); VStr (lit "ג")]);
    (lit "category", VStr (lit "טיש")) ].

(** the [id] of a record of the collection *)
Definition record_id (q : value) : option value :=
  match q with
  | VDict d => dict_get (lit "id") d
  | _ => None
  end.

(** [q'] is what the driver puts in the output for [q]: [q] itself when it
    is not classified as reversed, its fixed copy when it is. *)
Definition routed (q q' : value) : Prop :=
  exists d, q = VDict d /\
    ((classify d = Ok false /\ q' = q) \/
     (classify d = Ok true /\
      exists d', fix_question d = Ok d' /\ q' = VDict d')).

(** The two records of the end-to-end scenario, and the first one with a
    list of options. *)
Definition scenario_q1 : record :=
  [ (lit "id", VInt 1); (lit "text", VStr (lit " המ תלוכי?")) ].

Definition scenario_q2 : record :=
  [ (lit "id", VInt 2); (lit "text", VStr (lit "מה התלוכי?")) ].

Definition scenario_q1_with (opts : list pystr) : record :=
  scenario_q1 ++ [ (lit "options", VList (map VStr opts)) ].

(** The two lines the scenario prints. *)
Definition scenario_summary : line :=
  [ Lit (lit "Fixed "); Fmt (VInt 1); Lit (lit " questions out of ");
    Fmt (VInt 2) ].

Definition scenario_ids : line :=
  [ Lit (lit "Fixed IDs: "); Fmt (VList [VInt 1]) ].

(** Records that break the data model: one without [text], one classified
    as reversed without [options], one classified as reversed without
    [id]. *)
Definition no_text_question : record :=
  [ (lit "id", VInt 5); (lit "options", VList [VStr (lit "תניפס")]) ].

Definition no_options_question : record :=
  [ (lit "id", VInt 8); (lit "text", VStr (lit " ימ לבוקה?")) ].


(** A number or a boolean: a value with no [in], no slice and no
    iteration. *)
Definition is_scalar (v : value) : bool :=
  match v with
  | VBool _ | VInt _ | VFloat _ => true
  | _ => false
  end.

(** [m] is an element of the list [v], or a key of the dict [v]. *)
Definition holds (m : pystr) (v : value) : Prop :=
  match v with
  | VList l => In (VStr m) l
  | VDict d => In m (map fst d)
  | _ => False
  end.

(** The record is one the driver classifies as reversed. *)
Definition is_flagged (q : value) : bool :=
  match q with
  | VDict d =>
      match classify d with
      | Ok true => true
      | _ => false
      end
  | _ => false
  end.

(** [s] begins with [p] *)
Definition begins_with (p s : pystr) : Prop :=
  exists b, s = p ++ b.

(** The mirror image of the trailing pattern: the trimmed form of [s]
    begins with "during" as it is correctly written, with at most one of
    [?], [.], [!] in front of it. *)
Definition begins_with_during (s : pystr) : Prop :=
  begins_with (rev during_reversed) (strip s) \/
  exists c, (c = 63 \/ c = 46 \/ c = 33)%N /\
            begins_with (c :: rev during_reversed) (strip s).

(** A question of the data model whose text is a lone surrogate, as
    [json.load] reads it from the escape [\ud800]. *)
Definition surrogate_question : record :=
  [ (lit "id", VInt 1); (lit "text", VStr [55296%N]);
    (lit "options", VList []) ].

(** Records without [options] whose [text] is not a string: a number, and
    an object with a known-reversed marker as a key. *)
Definition number_text_question : record :=
  [ (lit "id", VInt 1); (lit "text", VInt 5) ].

Definition dict_text_question : record :=
  [ (lit "id", VInt 2); (lit "text", VDict [(lit "תניפס", VInt 1)]) ].

(** Neither end of [m] is a space. *)
Definition edges_ok (m : pystr) : Prop :=
  match m with
  | [] => True
  | c :: _ => is_space c = false
  end /\
  match rev m with
  | [] => True
  | c :: _ => is_space c = false
  end.

(** * Properties *)

(** ** What the claims speak of *)

(** [p] occurs in [s] *)
Definition substring (p s : pystr) : Prop :=
  exists a b, s = a ++ p ++ b.

(** [s] contains at least one marker of the list *)
Definition has_marker (markers : list pystr) (s : pystr) : Prop :=
  Exists (fun m => substring m s) markers.

(** [s] ends with [p] *)
Definition ends_with (p s : pystr) : Prop :=
  exists a, s = a ++ p.

(** The trimmed form of [s] ends with the reversed "during", optionally
    followed by exactly one of [?], [.], [!]. *)
Definition ends_with_during (s : pystr) : Prop :=
  ends_with during_reversed (strip s) \/
  exists c, (c = 63 \/ c = 46 \/ c = 33)%N /\
            ends_with (during_reversed ++ [c]) (strip s).

(** ** The literals of the source, as code points *)

Example lit_he_mem : lit " המ " = [32; 1492; 1502; 32]%N.
Proof. reflexivity. Qed.
Example lit_during : during_reversed = [1514; 1506; 1489]%N.
Proof. reflexivity. Qed.
Example reversed_patterns_points :
  reversed_patterns =
  [ [32; 1492; 1502; 32]; [32; 1492; 1502; 44]; [44; 1492; 1502; 32];
    [1492; 1502; 63]; [32; 1497; 1502; 32]; [32; 1498; 1497; 1488; 32];
    [32; 1501; 1488; 1492; 32]; [1503; 1497; 1495; 1489; 1502];
    [1514; 1504; 1497; 1508; 1505]; [1514; 1497; 1513; 1512; 1508; 1502];
    [1498; 1502; 1493; 1496; 1512; 1495]; [1492; 1490; 1500; 1508; 1492] ]%N.
Proof. reflexivity. Qed.
Example correct_patterns_points :
  correct_patterns =
  [ [1502; 1492; 32]; [1502; 1497; 32]; [1488; 1497; 1498; 32];
    [1492; 1488; 1501; 32]; [1492; 1497; 1504; 1498];
    [1489; 1506; 1514; 32]; [1499; 1488; 1513; 1512] ]%N.
Proof. reflexivity. Qed.

(** ** Strings *)

Lemma str_eqb_eq (a b : pystr) : str_eqb a b = true <-> a = b.
Proof.
  revert b; induction a as [|x a IH]; intros [|y b]; simpl;
    try (split; (discriminate || reflexivity)).
  rewrite andb_true_iff, N.eqb_eq, IH.
  split; [intros [-> ->]; reflexivity | intros E; inversion E; auto].
Qed.

Lemma str_eqb_refl (a : pystr) : str_eqb a a = true.
Proof. apply str_eqb_eq; reflexivity. Qed.

Lemma starts_with_spec (p s : pystr) :
  starts_with p s = true <-> exists r, s = p ++ r.
Proof.
  revert s; induction p as [|x p IH]; intros s; simpl.
  - split; [intros _; exists s; reflexivity | reflexivity].
  - destruct s as [|y s].
    + split; [discriminate | intros [r E]; discriminate].
    + rewrite andb_true_iff, N.eqb_eq, IH; split.
      * intros [-> [r ->]]; exists r; reflexivity.
      * intros [r E]; inversion E; subst; eauto.
Qed.

Lemma starts_with_skipn (p s : pystr) :
  starts_with p s = true -> s = p ++ skipn (List.length p) s.
Proof.
  intros H; apply starts_with_spec in H as [r ->].
  rewrite skipn_app, skipn_all, Nat.sub_diag; reflexivity.
Qed.

Lemma str_in_spec (p s : pystr) : str_in p s = true <-> substring p s.
Proof.
  unfold substring; induction s as [|y s IH].
  - simpl; rewrite orb_false_r, starts_with_spec; split.
    + intros [r E]; exists [], r; exact E.
    + intros [a [b E]]; destruct a; [exists b; exact E | discriminate].
  - cbn [str_in]; rewrite orb_true_iff, starts_with_spec, IH; split.
    + intros [[r E] | [a [b E]]].
      * exists [], r; exact E.
      * exists (y :: a), b; rewrite E; reflexivity.
    + intros [[|x a] [b E]].
      * left; exists b; exact E.
      * right; exists a, b; inversion E; reflexivity.
Qed.

Lemma existsb_str_in (markers : list pystr) (s : pystr) :
  existsb (fun m => str_in m s) markers = true <-> has_marker markers s.
Proof.
  unfold has_marker; rewrite existsb_exists, Exists_exists.
  split; intros [m [Hin H]]; exists m; split; auto; apply str_in_spec; auto.
Qed.

Lemma substring_rev (p s : pystr) : substring p s -> substring (rev p) (rev s).
Proof.
  intros [a [b ->]]; exists (rev b), (rev a).
  rewrite !rev_app_distr, app_assoc; reflexivity.
Qed.

(** ** Trimming *)

Lemma lstrip_head (s : pystr) :
  match lstrip s with
  | [] => True
  | c :: _ => is_space c = false
  end.
Proof.
  induction s as [|c s IH]; simpl; auto.
  destruct (is_space c) eqn:E; auto.
Qed.

Lemma strip_last (s a : pystr) (c : char) :
  strip s = a ++ [c] -> is_space c = false.
Proof.
  unfold strip, rstrip; intros H.
  pose proof (lstrip_head (rev (lstrip s))) as Hh.
  apply (f_equal (@rev char)) in H.
  rewrite rev_involutive, rev_app_distr in H; simpl in H.
  rewrite H in Hh; exact Hh.
Qed.

(** ** The trailing pattern *)

Lemma match_tail_spec (t : pystr) :
  match_tail t = true <->
  t = [] \/ t = [10%N] \/
  exists c, is_terminal_punct c = true /\ (t = [c] \/ t = [c; 10%N]).
Proof.
  destruct t as [|c [|d [|e t]]]; simpl.
  - split; auto.
  - rewrite andb_true_r, orb_true_iff, N.eqb_eq; split.
    + intros [H | ->]; eauto 6.
    + intros [H | [H | [c' [Hc [H | H]]]]]; try discriminate;
        inversion H; subst; auto.
  - rewrite orb_false_r, andb_true_iff, N.eqb_eq; split.
    + intros [H ->]; eauto 6.
    + intros [H | [H | [c' [Hc [H | H]]]]]; try discriminate;
        inversion H; subst; auto.
  - rewrite andb_false_r; split; [discriminate|].
    intros [H | [H | [c' [Hc [H | H]]]]]; discriminate.
Qed.

Lemma re_search_during_spec (s : pystr) :
  re_search_during s = true <->
  exists a t, s = a ++ during_reversed ++ t /\ match_tail t = true.
Proof.
  induction s as [|y s IH].
  - simpl; split; [discriminate|].
    intros [a [t [E _]]]; destruct a; discriminate.
  - cbn [re_search_during]; rewrite orb_true_iff, IH; unfold match_here.
    rewrite andb_true_iff; split.
    + intros [[H1 H2] | [a [t [E H]]]].
      * exists [], (skipn (List.length during_reversed) (y :: s)); split; auto.
        apply starts_with_skipn; exact H1.
      * exists (y :: a), t; split; auto; rewrite E; reflexivity.
    + intros [[|x a] [t [E H]]].
      * left; change ([] ++ during_reversed ++ t) with (during_reversed ++ t) in E.
        rewrite E; split.
        -- apply starts_with_spec; exists t; reflexivity.
        -- rewrite skipn_app, skipn_all, Nat.sub_diag; exact H.
      * right; exists a, t; split; auto; inversion E; reflexivity.
Qed.

Lemma is_terminal_punct_spec (c : char) :
  is_terminal_punct c = true <-> (c = 63 \/ c = 46 \/ c = 33)%N.
Proof.
  unfold is_terminal_punct; rewrite !orb_true_iff, !N.eqb_eq; tauto.
Qed.

(** On a trimmed string the regular expression is the suffix test. *)
Lemma re_search_during_strip (s : pystr) :
  re_search_during (strip s) = true <-> ends_with_during s.
Proof.
  rewrite re_search_during_spec; unfold ends_with_during, ends_with; split.
  - intros [a [t [E H]]]; apply match_tail_spec in H.
    destruct H as [-> | [-> | [c [Hc [-> | ->]]]]].
    + left; exists a; rewrite E, app_nil_r; reflexivity.
    + exfalso; rewrite app_assoc in E; apply strip_last in E; discriminate.
    + right; exists c; split; [apply is_terminal_punct_spec; exact Hc|].
      exists a; exact E.
    + exfalso; change [c; 10%N] with ([c] ++ [10%N]) in E.
      rewrite !app_assoc in E; apply strip_last in E; discriminate.
  - intros [[a E] | [c [Hc [a E]]]].
    + exists a, []; rewrite app_nil_r; split; auto.
    + exists a, [c]; split; [exact E|].
      apply match_tail_spec; right; right; exists c; split; auto.
      apply is_terminal_punct_spec; exact Hc.
Qed.

(** ** The classifier on strings *)

Lemma any_in_str (patterns : list pystr) (s : pystr) :
  any_in patterns (VStr s) = Ok (existsb (fun p => str_in p s) patterns).
Proof.
  induction patterns as [|p ps IH]; cbn [any_in existsb py_in bind]; auto.
  destruct (str_in p s); auto.
Qed.

Lemma is_reversed_hebrew_str (s : pystr) :
  is_reversed_hebrew (VStr s) =
  Ok (negb (str_eqb s []) &&
      negb (existsb (fun p => str_in p s) correct_patterns) &&
      (existsb (fun p => str_in p s) reversed_patterns ||
       re_search_during (strip s))).
Proof.
  unfold is_reversed_hebrew; cbn [truthy].
  destruct (str_eqb s []); cbn [negb andb]; auto.
  rewrite !any_in_str; cbn [bind py_strip].
  destruct (existsb _ correct_patterns); cbn [negb andb]; auto.
  destruct (existsb _ reversed_patterns); cbn [orb]; auto.
  destruct (re_search_during (strip s)); auto.
Qed.

(** As soon as a known-correct marker is found the function returns: neither
    the reversed markers nor [strip] are evaluated, whatever the value is. *)
Lemma correct_short_circuits (v : value) :
  truthy v = true ->
  any_in correct_patterns v = Ok true ->
  is_reversed_hebrew v = Ok false.
Proof.
  intros Ht Hc; unfold is_reversed_hebrew.
  rewrite Ht, Hc; reflexivity.
Qed.

Lemma has_marker_nonempty (markers : list pystr) (s : pystr) :
  Forall (fun m => m <> []) markers ->
  has_marker markers s -> s <> [].
Proof.
  unfold has_marker; rewrite Forall_forall, Exists_exists.
  intros Hne [m [Hin [a [b E]]]] ->.
  apply (Hne m Hin).
  destruct a; [destruct m; [reflexivity | discriminate] | discriminate].
Qed.

Lemma correct_patterns_nonempty : Forall (fun m => m <> []) correct_patterns.
Proof. repeat constructor; discriminate. Qed.

Lemma ends_with_during_nonempty (s : pystr) : ends_with_during s -> s <> [].
Proof.
  intros H ->; destruct H as [[a E] | [c [_ [a E]]]];
    destruct a; discriminate.
Qed.

Lemma truthy_str (s : pystr) : s <> [] -> truthy (VStr s) = true.
Proof. destruct s; [congruence | reflexivity]. Qed.

(** C1: a string that contains a known-correct marker and also a
    known-reversed marker (or ends, once trimmed, in the reversed "during"
    pattern) is classified as not reversed: the correct markers are checked
    first and decide alone. *)
Theorem correct_pattern_precedence (s : pystr) :
  has_marker correct_patterns s ->
  has_marker reversed_patterns s \/ ends_with_during s ->
  is_reversed_hebrew (VStr s) = Ok false.
Proof.
  intros Hc _; apply correct_short_circuits.
  - apply truthy_str.
    exact (has_marker_nonempty correct_patterns_nonempty Hc).
  - rewrite any_in_str; f_equal; apply existsb_str_in; exact Hc.
Qed.

Lemma correct_pattern_precedence_witness :
  has_marker correct_patterns (lit "מה המ ") /\
  has_marker reversed_patterns (lit "מה המ ") /\
  is_reversed_hebrew (VStr (lit "מה המ ")) = Ok false.
Proof.
  assert (Hc : has_marker correct_patterns (lit "מה המ "))
    by (apply existsb_str_in; reflexivity).
  assert (Hr : has_marker reversed_patterns (lit "מה המ "))
    by (apply existsb_str_in; reflexivity).
  split; [exact Hc | split; [exact Hr |]].
  exact (correct_pattern_precedence Hc (or_introl Hr)).
Defined.

(** C4: [is_reversed_hebrew] returns a boolean on every string; it returns
    false on the empty string, and false on every string with no
    known-correct marker, no known-reversed marker and no trailing reversed
    "during" in its trimmed form. *)
Theorem conservative_default :
  (forall s : pystr, exists b, is_reversed_hebrew (VStr s) = Ok b) /\
  is_reversed_hebrew (VStr []) = Ok false /\
  (forall s : pystr,
      ~ has_marker correct_patterns s ->
      ~ has_marker reversed_patterns s ->
      ~ ends_with_during s ->
      is_reversed_hebrew (VStr s) = Ok false).
Proof.
  split; [| split].
  - intros s; rewrite is_reversed_hebrew_str; eexists; reflexivity.
  - reflexivity.
  - intros s Hc Hr He; rewrite is_reversed_hebrew_str; f_equal.
    rewrite <- existsb_str_in in Hr; rewrite <- re_search_during_strip in He.
    apply not_true_is_false in Hr, He.
    rewrite Hr, He; apply andb_false_r.
Qed.

Lemma conservative_default_witness :
  ~ has_marker correct_patterns (lit "hello world") /\
  ~ has_marker reversed_patterns (lit "hello world") /\
  ~ ends_with_during (lit "hello world") /\
  is_reversed_hebrew (VStr (lit "hello world")) = Ok false.
Proof.
  assert (Hc : ~ has_marker correct_patterns (lit "hello world"))
    by (rewrite <- existsb_str_in; discriminate).
  assert (Hr : ~ has_marker reversed_patterns (lit "hello world"))
    by (rewrite <- existsb_str_in; discriminate).
  assert (He : ~ ends_with_during (lit "hello world"))
    by (rewrite <- re_search_during_strip; discriminate).
  split; [exact Hc | split; [exact Hr | split; [exact He |]]].
  exact (proj2 (proj2 conservative_default) _ Hc Hr He).
Defined.

(** C5: a string with no known-correct marker and no plain known-reversed
    marker whose trimmed form ends with the reversed "during", optionally
    followed by exactly one of [?], [.], [!], is classified as reversed. *)
Theorem trailing_during_is_reversed (s : pystr) :
  ~ has_marker correct_patterns s ->
  ~ has_marker reversed_patterns s ->
  ends_with_during s ->
  is_reversed_hebrew (VStr s) = Ok true.
Proof.
  intros Hc _ He; rewrite is_reversed_hebrew_str; f_equal.
  pose proof (truthy_str (ends_with_during_nonempty He)) as Ht.
  cbn [truthy] in Ht; rewrite Ht.
  rewrite <- existsb_str_in in Hc; apply not_true_is_false in Hc.
  apply re_search_during_strip in He.
  rewrite Hc, He, orb_true_r; reflexivity.
Qed.

Lemma trailing_during_is_reversed_witness :
  ~ has_marker correct_patterns (lit "  הלאש תעב? ") /\
  ~ has_marker reversed_patterns (lit "  הלאש תעב? ") /\
  ends_with_during (lit "  הלאש תעב? ") /\
  is_reversed_hebrew (VStr (lit "  הלאש תעב? ")) = Ok true.
Proof.
  assert (Hc : ~ has_marker correct_patterns (lit "  הלאש תעב? "))
    by (rewrite <- existsb_str_in; discriminate).
  assert (Hr : ~ has_marker reversed_patterns (lit "  הלאש תעב? "))
    by (rewrite <- existsb_str_in; discriminate).
  assert (He : ends_with_during (lit "  הלאש תעב? "))
    by (apply re_search_during_strip; reflexivity).
  split; [exact Hc | split; [exact Hr | split; [exact He |]]].
  exact (trailing_during_is_reversed Hc Hr He).
Defined.

(** ** Dicts *)

Lemma dict_get_mem (k : pystr) (d : record) (v : value) :
  dict_get k d = Some v -> dict_mem k d = true.
Proof. unfold dict_mem; intros ->; reflexivity. Qed.

Lemma getitem_ok (d : record) (k : pystr) (v : value) :
  getitem d k = Ok v <-> dict_get k d = Some v.
Proof.
  unfold getitem; destruct (dict_get k d); split; congruence.
Qed.

Lemma getitem_missing (d : record) (k : pystr) :
  dict_get k d = None -> getitem d k = Err (KeyError k).
Proof. unfold getitem; intros ->; reflexivity. Qed.

Lemma dict_get_set_same (k : pystr) (v : value) (d : record) :
  dict_get k (dict_set k v d) = Some v.
Proof.
  induction d as [|[k' v'] d IH]; simpl.
  - rewrite str_eqb_refl; reflexivity.
  - destruct (str_eqb k k') eqn:E; simpl; rewrite E; auto.
Qed.

Lemma dict_get_set_other (k k' : pystr) (v : value) (d : record) :
  str_eqb k k' = false ->
  dict_get k (dict_set k' v d) = dict_get k d.
Proof.
  intros Hk; induction d as [|[k0 v0] d IH]; simpl.
  - rewrite Hk; reflexivity.
  - destruct (str_eqb k' k0) eqn:E; simpl.
    + apply str_eqb_eq in E; subst k0; rewrite Hk; reflexivity.
    + rewrite IH; reflexivity.
Qed.

Lemma same_frame_refl (q : record) : same_frame q q.
Proof. induction q; constructor; auto. Qed.

Lemma same_frame_trans (a b c : record) :
  same_frame a b -> same_frame b c -> same_frame a c.
Proof.
  intros H; revert c; induction H as [|x y a b [Hk Hv] _ IH]; intros c Hbc;
    inversion Hbc as [|y' z b' c' [Hk' Hv'] Hrest]; subst; constructor.
  - split; [congruence|].
    intros Ht; rewrite Hv by exact Ht; apply Hv'; rewrite <- Hk; exact Ht.
  - apply IH; exact Hrest.
Qed.

Lemma dict_set_frame (k : pystr) (v : value) (d : record) :
  dict_mem k d = true -> touched k = true -> same_frame d (dict_set k v d).
Proof.
  unfold dict_mem; intros Hm Ht; induction d as [|[k' v'] d IH];
    simpl in *; [discriminate|].
  destruct (str_eqb k k') eqn:E.
  - apply str_eqb_eq in E; subst k'; constructor; [|apply same_frame_refl].
    simpl; split; [reflexivity | congruence].
  - constructor; [split; reflexivity | apply IH; exact Hm].
Qed.

Lemma same_frame_keys (q q' : record) :
  same_frame q q' -> map fst q' = map fst q.
Proof.
  induction 1 as [|x y q q' [Hk _] _ IH]; simpl; [reflexivity|].
  rewrite Hk, IH; reflexivity.
Qed.

Lemma same_frame_get (q q' : record) (k : pystr) :
  same_frame q q' -> touched k = false -> dict_get k q' = dict_get k q.
Proof.
  intros H Hk; induction H as [|[k1 v1] [k2 v2] q q' [E Hv] _ IH]; simpl in *;
    [reflexivity|].
  subst k2; destruct (str_eqb k k1) eqn:Ek; [|exact IH].
  apply str_eqb_eq in Ek; subst k1; rewrite Hv by exact Hk; reflexivity.
Qed.

Lemma dict_mem_keys (k : pystr) (d : record) :
  dict_mem k d = existsb (str_eqb k) (map fst d).
Proof.
  unfold dict_mem; induction d as [|[k' v'] d IH]; simpl; [reflexivity|].
  destruct (str_eqb k k'); simpl; auto.
Qed.

Lemma same_frame_mem (q q' : record) (k : pystr) :
  same_frame q q' -> dict_mem k q' = dict_mem k q.
Proof.
  intros H; rewrite !dict_mem_keys, (same_frame_keys H); reflexivity.
Qed.

(** ** fix_question *)

Ltac bind_ok H :=
  match type of H with
  | bind ?m _ = Ok _ =>
      let E := fresh "E" in
      destruct m eqn:E; cbn [bind] in H; [|discriminate H]
  end.

(** The result of a successful [fix_question], field by field. *)
Lemma fix_question_ok (q q' : record) :
  fix_question q = Ok q' ->
  exists t t' o os os',
    dict_get (lit "text") q = Some t /\ reverse_hebrew t = Ok t' /\
    dict_get (lit "options") q = Some o /\ py_iter o = Ok os /\
    mapM reverse_hebrew os = Ok os' /\
    dict_get (lit "text") q' = Some t' /\
    dict_get (lit "options") q' = Some (VList os') /\
    (forall c, dict_get (lit "category") q = Some c ->
               exists c', reverse_hebrew c = Ok c' /\
                          dict_get (lit "category") q' = Some c') /\
    same_frame q q'.
Proof.
  unfold fix_question; intros H.
  bind_ok H; rename a into t; rename E into Et.
  bind_ok H; rename a into t'; rename E into Et'.
  bind_ok H; rename a into o; rename E into Eo.
  bind_ok H; rename a into os; rename E into Eos.
  bind_ok H; rename a into os'; rename E into Eos'.
  apply getitem_ok in Et, Eo.
  exists t, t', o, os, os'.
  assert (F1 : same_frame q
                 (dict_set (lit "options") (VList os')
                    (dict_set (lit "text") t' q))).
  { eapply same_frame_trans.
    - apply dict_set_frame; [eapply dict_get_mem; exact Et | reflexivity].
    - apply dict_set_frame; [|reflexivity].
      rewrite dict_mem_keys, (same_frame_keys (q := q)), <- dict_mem_keys.
      + eapply dict_get_mem; exact Eo.
      + apply dict_set_frame; [eapply dict_get_mem; exact Et | reflexivity]. }
  destruct (dict_mem (lit "category") q) eqn:Ec.
  - bind_ok H; rename a into c; rename E into Ecv.
    bind_ok H; rename a into c'; rename E into Ec'.
    apply getitem_ok in Ecv; inversion H; subst q'; clear H.
    repeat split; auto.
    + rewrite !dict_get_set_other by reflexivity; apply dict_get_set_same.
    + rewrite dict_get_set_other by reflexivity; apply dict_get_set_same.
    + intros c0 Hc0; rewrite Ecv in Hc0; inversion Hc0; subst c0.
      exists c'; split; [exact Ec' | apply dict_get_set_same].
    + eapply same_frame_trans; [exact F1|].
      apply dict_set_frame; [|reflexivity].
      rewrite (same_frame_mem _ F1); exact Ec.
  - inversion H; subst q'; clear H.
    repeat split; auto.
    + rewrite dict_get_set_other by reflexivity; apply dict_get_set_same.
    + apply dict_get_set_same.
    + intros c Hc; apply dict_get_mem in Hc; congruence.
Qed.

Lemma mapM_reverse_strs (l : list value) :
  forallb is_str l = true -> exists l', mapM reverse_hebrew l = Ok l'.
Proof.
  induction l as [|v l IH]; simpl; [eauto|].
  rewrite andb_true_iff; intros [Hv Hl].
  destruct v; try discriminate; destruct (IH Hl) as [l' ->]; simpl; eauto.
Qed.

(** On a question of the data model [fix_question] returns a record. *)
Lemma fix_question_total (q : record) :
  well_formed_question q = true -> exists q', fix_question q = Ok q'.
Proof.
  unfold well_formed_question, fix_question, getitem, dict_mem.
  destruct (dict_get (lit "text") q) as [t|]; [|discriminate].
  destruct (dict_get (lit "options") q) as [o|]; [|discriminate].
  rewrite !andb_true_iff; intros [[Ht Ho] Hc].
  destruct t; try discriminate; cbn [bind reverse_hebrew].
  destruct o; try discriminate; cbn [bind py_iter].
  destruct (mapM_reverse_strs _ Ho) as [os' ->]; cbn [bind].
  destruct (dict_get (lit "category") q) as [c|]; [|eauto].
  destruct c; try discriminate; cbn [bind reverse_hebrew]; eauto.
Qed.

Lemma touched_false (k : pystr) :
  k <> lit "text" -> k <> lit "options" -> k <> lit "category" ->
  touched k = false.
Proof.
  intros H1 H2 H3; unfold touched.
  rewrite !orb_false_iff; repeat split;
    apply not_true_is_false; rewrite str_eqb_eq; assumption.
Qed.

(** C6: on a record with [text] and [options], [fix_question] assigns only
    [text], [options] and [category]: the result has the keys of the input
    in the same order, every other key keeps its value, and [category] is
    in the result exactly when it is in the input, reversed. *)
Theorem fix_question_field_scoping (q : record) :
  dict_mem (lit "text") q = true ->
  dict_mem (lit "options") q = true ->
  (forall q', fix_question q = Ok q' ->
     map fst q' = map fst q /\
     (forall k, k <> lit "text" -> k <> lit "options" ->
                k <> lit "category" -> dict_get k q' = dict_get k q) /\
     dict_mem (lit "category") q' = dict_mem (lit "category") q /\
     (forall c, dict_get (lit "category") q = Some c ->
                exists c', reverse_hebrew c = Ok c' /\
                           dict_get (lit "category") q' = Some c')) /\
  (well_formed_question q = true -> exists q', fix_question q = Ok q').
Proof.
  intros _ _; split; [|apply fix_question_total].
  intros q' H.
  destruct (fix_question_ok q H)
    as (t & t' & o & os & os' & _ & _ & _ & _ & _ & _ & _ & Hc & F).
  split; [apply same_frame_keys; exact F|].
  split; [|split; [apply same_frame_mem; exact F | exact Hc]].
  intros k H1 H2 H3; apply same_frame_get; [exact F|].
  apply touched_false; assumption.
Qed.

Lemma fix_question_field_scoping_witness :
  exists q', fix_question sample_question = Ok q' /\
             map fst q' = map fst sample_question /\
             dict_get (lit "image") q' = dict_get (lit "image") sample_question.
Proof.
  destruct (fix_question_field_scoping sample_question eq_refl eq_refl)
    as [Hframe Htotal].
  destruct (Htotal eq_refl) as [q' Hq'].
  exists q'; split; [exact Hq'|].
  destruct (Hframe q' Hq') as (Hkeys & Hget & _).
  split; [exact Hkeys|].
  apply Hget; discriminate.
Defined.

(** ** Detection after the fix *)

(** The reversal of a text in which a mirrored known-correct marker occurs
    holds that known-correct marker. *)
Lemma has_marker_rev (markers : list pystr) (s : pystr) :
  has_marker (map (@rev char) markers) s -> has_marker markers (rev s).
Proof.
  unfold has_marker; rewrite !Exists_exists.
  intros [m [Hin Hs]]; apply in_map_iff in Hin as [m0 [<- Hin0]].
  exists m0; split; [exact Hin0|].
  apply substring_rev in Hs; rewrite rev_involutive in Hs; exact Hs.
Qed.

Lemma substring_trans (a b c : pystr) :
  substring a b -> substring b c -> substring a c.
Proof.
  intros [x [y ->]] [u [v ->]]; exists (u ++ x), (y ++ v).
  rewrite <- !app_assoc; reflexivity.
Qed.

(** The reversed markers for the question words "what", "who", "how" and
    "is/does" are mirrored known-correct markers with a space in front. *)
Lemma question_words_mirrored (s : pystr) :
  has_marker [lit " המ "; lit " המ,"; lit " ימ "; lit " ךיא "; lit " םאה "] s ->
  has_marker (map (@rev char) correct_patterns) s.
Proof.
  unfold has_marker; rewrite !Exists_exists; intros [m [Hin Hs]].
  simpl in Hin.
  destruct Hin as [<- | [<- | [<- | [<- | [<- | []]]]]].
  - exists (rev (lit "מה ")); split; [simpl; auto|].
    eapply substring_trans; [|exact Hs]. exists [], [32%N]; reflexivity.
  - exists (rev (lit "מה ")); split; [simpl; auto|].
    eapply substring_trans; [|exact Hs]. exists [], [44%N]; reflexivity.
  - exists (rev (lit "מי ")); split; [simpl; auto|].
    eapply substring_trans; [|exact Hs]. exists [], [32%N]; reflexivity.
  - exists (rev (lit "איך ")); split; [simpl; auto 6|].
    eapply substring_trans; [|exact Hs]. exists [], [32%N]; reflexivity.
  - exists (rev (lit "האם ")); split; [simpl; auto 6|].
    eapply substring_trans; [|exact Hs]. exists [], [32%N]; reflexivity.
Qed.

(** C2, as stated, fails: the palindrome question is classified as
    reversed, [fix_question] returns it as it is, and it is classified as
    reversed again. *)
Lemma palindrome_stays_reversed :
  dict_get (lit "text") palindrome_question = Some (VStr (lit "הגלפהפלגה")) /\
  dict_mem (lit "options") palindrome_question = true /\
  is_reversed_hebrew (VStr (lit "הגלפהפלגה")) = Ok true /\
  fix_question palindrome_question = Ok palindrome_question /\
  ~ (exists q' t', fix_question palindrome_question = Ok q' /\
                   dict_get (lit "text") q' = Some t' /\
                   is_reversed_hebrew t' = Ok false).
Proof.
  repeat split.
  intros (q' & t' & Hfix & Hget & Hrev).
  vm_compute in Hfix; inversion Hfix; subst q'; clear Hfix.
  vm_compute in Hget; inversion Hget; subst t'; clear Hget.
  vm_compute in Hrev; discriminate Hrev.
Qed.

(** ** The loop of the driver *)

Lemma foldM_app {A S} (f : S -> A -> result S) (st : S) (a b : list A) :
  foldM f st (a ++ b) = (st' <- foldM f st a ;; foldM f st' b).
Proof.
  revert st; induction a as [|x a IH]; intros st; simpl; [reflexivity|].
  destruct (f st x); simpl; auto.
Qed.

(** What one successful iteration does to the accumulators. *)
Lemma loop_body_ok (st st' : loop_state) (q : value) :
  loop_body st q = Ok st' ->
  exists q', routed q q' /\ record_id q' = record_id q /\
             fixed_questions st' = fixed_questions st ++ [q'].
Proof.
  unfold loop_body, routed; destruct q as [| | | | | |d]; try discriminate.
  fold (classify d); intros H.
  bind_ok H; rename a into reversed; destruct reversed.
  - bind_ok H; rename a into d'; rename E0 into Hfix.
    bind_ok H; inversion H; subst st'; clear H; cbn [fixed_questions].
    exists (VDict d'); split; [|split; [|reflexivity]].
    + exists d; split; [reflexivity|]; right; split; [exact E|].
      exists d'; auto.
    + destruct (fix_question_ok d Hfix)
        as (t & t' & o & os & os' & _ & _ & _ & _ & _ & _ & _ & _ & F).
      apply same_frame_get; [exact F | reflexivity].
  - inversion H; subst st'; clear H; cbn [fixed_questions].
    exists (VDict d); split; [|split; reflexivity].
    exists d; split; [reflexivity|]; left; auto.
Qed.

Lemma foldM_loop_ok (qs : list value) (st st' : loop_state) :
  foldM loop_body st qs = Ok st' ->
  exists out, fixed_questions st' = fixed_questions st ++ out /\
              Forall2 (fun q q' => routed q q' /\ record_id q' = record_id q)
                      qs out.
Proof.
  revert st; induction qs as [|q qs IH]; intros st H; simpl in H.
  - inversion H; subst; exists []; rewrite app_nil_r; auto.
  - bind_ok H; rename a into st1.
    destruct (loop_body_ok _ _ E) as (q' & Hr & Hid & Hq).
    destruct (IH _ H) as (out & Hout & Hall).
    exists (q' :: out); split; [|constructor; auto].
    rewrite Hout, Hq, <- app_assoc; reflexivity.
Qed.

Lemma Forall2_nth_error {A B} (R : A -> B -> Prop) (l : list A) (l' : list B) :
  Forall2 R l l' ->
  forall i x, nth_error l i = Some x ->
              exists y, nth_error l' i = Some y /\ R x y.
Proof.
  induction 1 as [|a b l l' Hab _ IH]; intros [|i] x Hx; simpl in *;
    try discriminate.
  - inversion Hx; subst; eauto.
  - apply IH; exact Hx.
Qed.

(** A completed run has written the accumulated list. *)
Lemma main_completed (w w' : world) (qs : list value) :
  file w = VList qs -> main w = (w', None) ->
  exists st, run_loop qs = Ok st /\
             w' = mk_world (VList (fixed_questions st))
                    (stdout w ++ [summary_line st (List.length qs);
                                  ids_line st]).
Proof.
  unfold main; intros Hw H; rewrite Hw in H; cbn [py_iter bind] in H.
  destruct (run_loop qs) as [st|e]; cbn [bind] in H; [|discriminate].
  destruct (encodable (VList (fixed_questions st))); [|discriminate].
  inversion H; eauto.
Qed.

(** An aborted run leaves the file and the terminal as they were. *)
Lemma main_aborted (w : world) (qs : list value) (e : exn) :
  file w = VList qs -> run_loop qs = Err e -> main w = (w, Some e).
Proof.
  unfold main; intros Hw H; rewrite Hw; cbn [py_iter bind].
  rewrite H; reflexivity.
Qed.

Lemma classify_str_total (d : record) (s : pystr) :
  dict_get (lit "text") d = Some (VStr s) -> exists b, classify d = Ok b.
Proof.
  unfold classify, get_default; intros ->.
  rewrite is_reversed_hebrew_str; eauto.
Qed.

Lemma loop_body_total (st : loop_state) (q : value) :
  well_formed_record q = true -> exists st', loop_body st q = Ok st'.
Proof.
  destruct q as [| | | | | |d]; try discriminate; cbn [well_formed_record].
  rewrite andb_true_iff; intros [Hwf Hid].
  unfold loop_body; fold (classify d).
  assert (Hc : exists b, classify d = Ok b).
  { pose proof Hwf as Hwf'; unfold well_formed_question in Hwf'.
    destruct (dict_get (lit "text") d) as [t|] eqn:Et; [|discriminate].
    destruct t; try (destruct (dict_get (lit "options") d); discriminate).
    eapply classify_str_total; exact Et. }
  destruct Hc as [b ->]; cbn [bind]; destruct b; [|eauto].
  destruct (fix_question_total d Hwf) as [d' ->]; cbn [bind].
  unfold dict_mem in Hid; unfold getitem.
  destruct (dict_get (lit "id") d); [|discriminate]; cbn [bind]; eauto.
Qed.

(** ** The end-to-end scenario *)

Lemma mapM_reverse_map_VStr (opts : list pystr) :
  mapM reverse_hebrew (map VStr opts) = Ok (map VStr (map (@rev char) opts)).
Proof.
  induction opts as [|o opts IH]; simpl; [reflexivity|].
  rewrite IH; reflexivity.
Qed.

Lemma fix_scenario_q1 (opts : list pystr) :
  fix_question (scenario_q1_with opts) =
  Ok [ (lit "id", VInt 1);
       (lit "text", VStr (lit "?יכולת מה "));
       (lit "options", VList (map VStr (map (@rev char) opts))) ].
Proof.
  unfold fix_question.
  change (getitem (scenario_q1_with opts) (lit "text"))
    with (Ok (A := value) (VStr (lit " המ תלוכי?"))).
  cbn [bind reverse_hebrew].
  change (getitem (scenario_q1_with opts) (lit "options"))
    with (Ok (VList (map VStr opts))).
  cbn [bind py_iter]; rewrite mapM_reverse_map_VStr; cbn [bind].
  reflexivity.
Qed.

(** C3, as stated, fails: the two records of the scenario have no
    [options], so the run stops at the first one with a [KeyError], writes
    nothing and prints nothing. *)
Lemma scenario_without_options_aborts :
  classify scenario_q1 = Ok true /\
  classify scenario_q2 = Ok false /\
  main (mk_world (VList [VDict scenario_q1; VDict scenario_q2]) [])
  = (mk_world (VList [VDict scenario_q1; VDict scenario_q2]) [],
     Some (KeyError (lit "options"))).
Proof. repeat split. Qed.

(** ** Failures of the record shape *)

Lemma fix_question_missing_text (q : record) :
  dict_get (lit "text") q = None ->
  fix_question q = Err (KeyError (lit "text")).
Proof.
  intros H; unfold fix_question; rewrite (getitem_missing _ _ H); reflexivity.
Qed.

Lemma fix_question_needs_fields (q : record) :
  dict_get (lit "text") q = None \/ dict_get (lit "options") q = None ->
  exists e, fix_question q = Err e.
Proof.
  intros H; destruct (fix_question q) as [q'|e] eqn:E; [|eauto].
  destruct (fix_question_ok q E)
    as (t & t' & o & os & os' & Ht & _ & Ho & _).
  destruct H as [H | H]; congruence.
Qed.

Lemma loop_body_fix_fails (st : loop_state) (d : record) (e : exn) :
  classify d = Ok true -> fix_question d = Err e ->
  loop_body st (VDict d) = Err e.
Proof.
  unfold classify, loop_body; intros -> ->; reflexivity.
Qed.


(** A record on which the loop body fails in every state stops the loop,
    wherever it is in the collection. *)
Lemma loop_stops_at (q : value) (qs : list value) :
  (forall st, exists e, loop_body st q = Err e) ->
  In q qs ->
  forall st, exists e, foldM loop_body st qs = Err e.
Proof.
  intros Hq; induction qs as [|q0 qs IH]; intros Hin st; [destruct Hin|].
  cbn [foldM]; destruct (loop_body st q0) as [st1|e] eqn:E; cbn [bind];
    [|eauto].
  destruct Hin as [-> | Hin]; [|apply IH; exact Hin].
  destruct (Hq st) as [e He]; congruence.
Qed.

(** ** Which exceptions can be raised *)

Lemma any_in_err (patterns : list pystr) (v : value) (e : exn) :
  any_in patterns v = Err e -> e = TypeError.
Proof.
  induction patterns as [|p ps IH]; cbn [any_in]; [discriminate|].
  destruct (py_in p v) as [b|e0] eqn:E; cbn [bind].
  - destruct b; [discriminate | exact IH].
  - destruct v; cbn [py_in] in E; congruence.
Qed.

Lemma is_reversed_hebrew_err (v : value) (e : exn) :
  is_reversed_hebrew v = Err e -> e = TypeError \/ e = AttributeError.
Proof.
  unfold is_reversed_hebrew.
  destruct (negb (truthy v)); [discriminate|].
  destruct (any_in correct_patterns v) as [b|e0] eqn:Ec; cbn [bind].
  - destruct b; [discriminate|].
    destruct (any_in reversed_patterns v) as [b|e1] eqn:Er; cbn [bind].
    + destruct b; [discriminate|].
      destruct (py_strip v) as [s|e2] eqn:Es; cbn [bind].
      * destruct (re_search_during s); discriminate.
      * destruct v; cbn [py_strip] in Es; intros H; right; congruence.
    + intros H; left; apply any_in_err in Er; congruence.
  - intros H; left; apply any_in_err in Ec; congruence.
Qed.

Lemma reverse_hebrew_err (v : value) (e : exn) :
  reverse_hebrew v = Err e -> e = TypeError \/ e = SliceOfDict.
Proof. destruct v; cbn [reverse_hebrew]; intros H; inversion H; auto. Qed.

Lemma py_iter_err (v : value) (e : exn) : py_iter v = Err e -> e = TypeError.
Proof. destruct v; cbn [py_iter]; congruence. Qed.

Lemma mapM_reverse_err (l : list value) (e : exn) :
  mapM reverse_hebrew l = Err e -> e = TypeError \/ e = SliceOfDict.
Proof.
  induction l as [|v l IH]; cbn [mapM]; [discriminate|].
  destruct (reverse_hebrew v) as [v'|e0] eqn:E; cbn [bind].
  - destruct (mapM reverse_hebrew l); cbn [bind]; [discriminate | exact IH].
  - intros H; apply reverse_hebrew_err in E; congruence.
Qed.

(** [fix_question] raises a [KeyError] on [text] only when [text] is
    missing. *)
Lemma fix_question_key_error_text (q : record) :
  fix_question q = Err (KeyError (lit "text")) ->
  dict_get (lit "text") q = None.
Proof.
  unfold fix_question, getitem, dict_mem.
  destruct (dict_get (lit "text") q) as [t|]; [|reflexivity]; cbn [bind].
  destruct (reverse_hebrew t) as [t'|e] eqn:Et; cbn [bind];
    [|apply reverse_hebrew_err in Et; intros H; exfalso;
      destruct Et; congruence].
  destruct (dict_get (lit "options") q) as [o|]; cbn [bind]; [|discriminate].
  destruct (py_iter o) as [os|e] eqn:Eo; cbn [bind];
    [|apply py_iter_err in Eo; congruence].
  destruct (mapM reverse_hebrew os) as [os'|e] eqn:Eos; cbn [bind];
    [|apply mapM_reverse_err in Eos; intros H; exfalso;
      destruct Eos; congruence].
  destruct (dict_get (lit "category") q) as [c|]; cbn [bind]; [|discriminate].
  destruct (reverse_hebrew c) as [c'|e] eqn:Ec; cbn [bind]; [discriminate|].
  apply reverse_hebrew_err in Ec; intros H; exfalso; destruct Ec; congruence.
Qed.

Lemma classify_missing_text (d : record) :
  dict_get (lit "text") d = None -> classify d = Ok false.
Proof. unfold classify, get_default; intros ->; reflexivity. Qed.

Lemma loop_body_never_text_error (st : loop_state) (q : value) :
  loop_body st q <> Err (KeyError (lit "text")).
Proof.
  unfold loop_body; destruct q as [| | | | | |d]; try discriminate.
  fold (classify d).
  destruct (classify d) as [b|e] eqn:Ec; cbn [bind].
  - destruct b; [|discriminate].
    destruct (fix_question d) as [d'|e] eqn:Ef; cbn [bind].
    + unfold getitem; destruct (dict_get (lit "id") d); discriminate.
    + intros H; inversion H; subst e.
      apply fix_question_key_error_text, classify_missing_text in Ef.
      congruence.
  - unfold classify in Ec; apply is_reversed_hebrew_err in Ec.
    destruct Ec; congruence.
Qed.

Lemma foldM_loop_never_text_error (qs : list value) (st : loop_state) :
  foldM loop_body st qs <> Err (KeyError (lit "text")).
Proof.
  revert st; induction qs as [|q qs IH]; intros st; cbn [foldM];
    [discriminate|].
  destruct (loop_body st q) as [st1|e] eqn:E; cbn [bind]; [apply IH|].
  rewrite <- E; apply loop_body_never_text_error.
Qed.

(** A record the loop passes through unchanged stays where it is. *)
Lemma foldM_loop_passes (qs : list value) (st st' : loop_state) (i : nat)
      (d : record) :
  foldM loop_body st qs = Ok st' ->
  nth_error qs i = Some (VDict d) ->
  classify d = Ok false ->
  nth_error (fixed_questions st') (List.length (fixed_questions st) + i)
  = Some (VDict d).
Proof.
  intros Hrun Hi Hc.
  destruct (foldM_loop_ok _ _ Hrun) as (out & -> & Hall).
  destruct (Forall2_nth_error Hall _ Hi) as (q' & Hq' & (d0 & E & Hr) & _).
  inversion E; subst d0; clear E.
  rewrite nth_error_app2, Nat.add_comm, Nat.add_sub by lia.
  destruct Hr as [[_ ->] | [Hc' _]]; [exact Hq' | congruence].
Qed.

(** C9: a record with no [text] is classified on the empty string, hence as
    not reversed; the loop appends it as it is, a completed run has it at
    its position in the output, and no run, on any file, stops with a
    [KeyError] on [text]. *)
Theorem missing_text_passes_through :
  (forall d, dict_get (lit "text") d = None ->
             get_default d (lit "text") (VStr []) = VStr [] /\
             classify d = Ok false) /\
  (forall st d, dict_get (lit "text") d = None ->
                loop_body st (VDict d) =
                Ok (mk_loop_state (fixed_count st)
                      (fixed_questions st ++ [VDict d]) (fixed_ids st))) /\
  (forall w qs i d w',
      file w = VList qs -> nth_error qs i = Some (VDict d) ->
      dict_get (lit "text") d = None ->
      main w = (w', None) ->
      exists out, file w' = VList out /\ nth_error out i = Some (VDict d)) /\
  (forall w w', main w <> (w', Some (KeyError (lit "text")))).
Proof.
  split; [|split; [|split]].
  - intros d H; split; [unfold get_default; rewrite H; reflexivity|].
    apply classify_missing_text; exact H.
  - intros st d H; unfold loop_body; fold (classify d).
    rewrite (classify_missing_text d H); reflexivity.
  - intros w qs i d w' Hw Hi Ht Hmain.
    destruct (main_completed w Hw Hmain) as (st & Hrun & ->).
    exists (fixed_questions st); split; [reflexivity|].
    exact (@foldM_loop_passes qs loop_init st i d Hrun Hi
             (classify_missing_text d Ht)).
  - intros w w' H; unfold main in H.
    destruct (file w) as [questions|]; [|discriminate].
    destruct (py_iter questions) as [qs|e] eqn:Ei; cbn [bind] in H.
    + destruct (run_loop qs) as [st|e] eqn:Er; cbn [bind] in H.
      * destruct (encodable (VList (fixed_questions st))); discriminate.
      * inversion H; subst e.
        exact (foldM_loop_never_text_error qs loop_init Er).
    + apply py_iter_err in Ei; inversion H; congruence.
Qed.

Lemma missing_text_passes_through_witness :
  exists w',
    main (mk_world (VList [VDict sample_question; VDict no_text_question]) [])
    = (w', None) /\
    exists out, file w' = VList out /\
                nth_error out 1 = Some (VDict no_text_question).
Proof.
  eexists; split; [reflexivity|].
  refine (proj1 (proj2 (proj2 missing_text_passes_through))
            (mk_world (VList [VDict sample_question; VDict no_text_question])
               [])
            [VDict sample_question; VDict no_text_question] 1
            no_text_question _ eq_refl eq_refl eq_refl eq_refl).
Defined.



(** * Further properties of the code *)

(** ** reverse_hebrew *)

(** X1: [reverse_hebrew] is its own inverse wherever it returns: reversing
    the result gives the input back. *)
Theorem reverse_hebrew_involutive (v v' : value) :
  reverse_hebrew v = Ok v' -> reverse_hebrew v' = Ok v.
Proof.
  destruct v; cbn [reverse_hebrew]; intros H; inversion H; subst;
    cbn [reverse_hebrew]; rewrite rev_involutive; reflexivity.
Qed.

Lemma reverse_hebrew_involutive_witness :
  reverse_hebrew (VStr (lit "?יכולת מה ")) = Ok (VStr (lit " המ תלוכי?")).
Proof.
  apply (@reverse_hebrew_involutive (VStr (lit " המ תלוכי?"))); reflexivity.
Defined.

(** ** Assignments to a dict *)

Lemma dict_mem_set (k k' : pystr) (v : value) (d : record) :
  dict_mem k (dict_set k' v d) = dict_mem k d || str_eqb k k'.
Proof.
  rewrite !dict_mem_keys; induction d as [|[k0 v0] d IH]; simpl.
  - rewrite orb_false_r; reflexivity.
  - destruct (str_eqb k' k0) eqn:E; simpl.
    + apply str_eqb_eq in E; subst k0.
      destruct (str_eqb k k'); simpl; [reflexivity | rewrite orb_false_r; reflexivity].
    + rewrite IH, orb_assoc; reflexivity.
Qed.

Lemma dict_set_same_value (k : pystr) (v : value) (d : record) :
  dict_get k d = Some v -> dict_set k v d = d.
Proof.
  induction d as [|[k0 v0] d IH]; simpl; [discriminate|].
  destruct (str_eqb k k0); intros H; [inversion H; reflexivity|].
  rewrite IH by exact H; reflexivity.
Qed.

Lemma dict_set_twice (k : pystr) (v v' : value) (d : record) :
  dict_set k v (dict_set k v' d) = dict_set k v d.
Proof.
  induction d as [|[k0 v0] d IH]; simpl.
  - rewrite str_eqb_refl; reflexivity.
  - destruct (str_eqb k k0) eqn:E; simpl; rewrite E; [reflexivity|].
    rewrite IH; reflexivity.
Qed.

Lemma dict_set_comm (k k' : pystr) (v v' : value) (d : record) :
  str_eqb k k' = false -> dict_mem k d = true ->
  dict_set k v (dict_set k' v' d) = dict_set k' v' (dict_set k v d).
Proof.
  intros Hk; rewrite dict_mem_keys.
  induction d as [|[k0 v0] d IH]; simpl; [discriminate|].
  destruct (str_eqb k k0) eqn:E, (str_eqb k' k0) eqn:E'; simpl;
    rewrite ?E, ?E'; intros Hm.
  - apply str_eqb_eq in E, E'; subst; rewrite str_eqb_refl in Hk; discriminate.
  - reflexivity.
  - reflexivity.
  - rewrite IH by exact Hm; reflexivity.
Qed.

(** ** fix_question on the data model *)

Lemma forallb_is_str (l : list value) :
  forallb is_str l = true -> exists os, l = map VStr os.
Proof.
  induction l as [|v l IH]; simpl; [exists []; reflexivity|].
  rewrite andb_true_iff; intros [Hv Hl]; destruct (IH Hl) as [os ->].
  destruct v; try discriminate; exists (s :: os); reflexivity.
Qed.

Lemma forallb_is_str_map (os : list pystr) :
  forallb is_str (map VStr os) = true.
Proof. induction os; simpl; auto. Qed.

Lemma map_rev_rev (os : list pystr) :
  map (@rev char) (map (@rev char) os) = os.
Proof.
  induction os as [|o os IH]; simpl; [reflexivity|].
  rewrite rev_involutive, IH; reflexivity.
Qed.

Lemma well_formed_question_inv (q : record) :
  well_formed_question q = true ->
  exists t os,
    dict_get (lit "text") q = Some (VStr t) /\
    dict_get (lit "options") q = Some (VList (map VStr os)) /\
    (dict_get (lit "category") q = None \/
     exists c, dict_get (lit "category") q = Some (VStr c)).
Proof.
  unfold well_formed_question.
  destruct (dict_get (lit "text") q) as [t|]; [|discriminate].
  destruct (dict_get (lit "options") q) as [o|]; [|discriminate].
  rewrite !andb_true_iff; intros [[Ht Ho] Hc].
  destruct t; try discriminate; destruct o; try discriminate.
  destruct (forallb_is_str _ Ho) as [os ->]; exists s, os.
  split; [reflexivity | split; [reflexivity|]].
  destruct (dict_get (lit "category") q) as [c|]; [|auto].
  destruct c; try discriminate; eauto.
Qed.

(** The record [fix_question] returns, written out. *)
Lemma fix_question_explicit (q : record) (t : pystr) (os : list pystr) :
  dict_get (lit "text") q = Some (VStr t) ->
  dict_get (lit "options") q = Some (VList (map VStr os)) ->
  let base := dict_set (lit "options") (VList (map VStr (map (@rev char) os)))
                (dict_set (lit "text") (VStr (rev t)) q) in
  (dict_get (lit "category") q = None -> fix_question q = Ok base) /\
  (forall c, dict_get (lit "category") q = Some (VStr c) ->
             fix_question q =
             Ok (dict_set (lit "category") (VStr (rev c)) base)).
Proof.
  intros Ht Ho base; unfold fix_question, getitem, dict_mem.
  rewrite Ht, Ho; cbn [bind reverse_hebrew py_iter].
  rewrite mapM_reverse_map_VStr; cbn [bind].
  split; [intros ->; reflexivity | intros c ->; reflexivity].
Qed.

(** X2: on a question whose [text] is a string and whose [options] is a
    list of strings (and whose [category], if any, is a string),
    [fix_question] returns a record with the text reversed, every option
    reversed in its place (same number, same order) and the category
    reversed; classification plays no part in it. *)
Theorem fix_question_reverses_fields (q : record) (t : pystr)
        (os : list pystr) :
  dict_get (lit "text") q = Some (VStr t) ->
  dict_get (lit "options") q = Some (VList (map VStr os)) ->
  (forall c, dict_get (lit "category") q = Some c -> is_str c = true) ->
  exists q',
    fix_question q = Ok q' /\
    dict_get (lit "text") q' = Some (VStr (rev t)) /\
    dict_get (lit "options") q' = Some (VList (map VStr (map (@rev char) os))) /\
    (forall c, dict_get (lit "category") q = Some (VStr c) ->
               dict_get (lit "category") q' = Some (VStr (rev c))).
Proof.
  intros Ht Ho Hc.
  destruct (@fix_question_explicit q t os Ht Ho) as [Hnone Hsome].
  destruct (dict_get (lit "category") q) as [c|] eqn:Ec.
  - specialize (Hc c eq_refl); destruct c as [| | | |c| |]; try discriminate.
    eexists; split; [apply Hsome; reflexivity|].
    split; [|split].
    + rewrite !dict_get_set_other by reflexivity; apply dict_get_set_same.
    + rewrite dict_get_set_other by reflexivity; apply dict_get_set_same.
    + intros c0 H; inversion H; subst c0; apply dict_get_set_same.
  - eexists; split; [apply Hnone; reflexivity|].
    split; [|split].
    + rewrite dict_get_set_other by reflexivity; apply dict_get_set_same.
    + apply dict_get_set_same.
    + intros c0 H; discriminate H.
Qed.

Lemma fix_question_reverses_fields_witness :
  exists q',
    fix_question sample_question = Ok q' /\
    dict_get (lit "text") q' = Some (VStr (lit "?ספינת מה ")) /\
    dict_get (lit "options") q'
    = Some (VList [VStr (lit "ב א"); VStr (lit "ג")]).
Proof.
  destruct (@fix_question_reverses_fields sample_question (lit " המ תניפס?")
              [lit "א ב"; lit "ג"] eq_refl eq_refl)
    as (q' & Hfix & Ht & Ho & _).
  - intros c H; inversion H; reflexivity.
  - exists q'; split; [exact Hfix | split; [exact Ht | exact Ho]].
Defined.

(** X3: on a question of the data model [fix_question] is its own inverse:
    the result is again a question of the data model, and fixing it gives
    the input record back, key for key. *)
Theorem fix_question_involutive (q : record) :
  well_formed_question q = true ->
  exists q', fix_question q = Ok q' /\
             well_formed_question q' = true /\
             fix_question q' = Ok q.
Proof.
  intros Hwf.
  destruct (well_formed_question_inv q Hwf) as (t & os & Ht & Ho & Hc).
  destruct (@fix_question_explicit q t os Ht Ho) as [Hnone Hsome].
  set (base := dict_set (lit "options")
                 (VList (map VStr (map (@rev char) os)))
                 (dict_set (lit "text") (VStr (rev t)) q)) in *.
  assert (Hbt : dict_get (lit "text") base = Some (VStr (rev t))).
  { unfold base; rewrite dict_get_set_other by reflexivity.
    apply dict_get_set_same. }
  assert (Hbo : dict_get (lit "options") base
                = Some (VList (map VStr (map (@rev char) os)))).
  { unfold base; apply dict_get_set_same. }
  assert (Hbc : dict_get (lit "category") base = dict_get (lit "category") q).
  { unfold base; rewrite !dict_get_set_other by reflexivity; reflexivity. }
  assert (Hback :
            dict_set (lit "options") (VList (map VStr os))
              (dict_set (lit "text") (VStr t) base) = q).
  { unfold base.
    rewrite (@dict_set_comm (lit "text") (lit "options")); [|reflexivity|].
    - rewrite !dict_set_twice, (dict_set_same_value _ _ Ht).
      apply dict_set_same_value; exact Ho.
    - rewrite dict_mem_set, str_eqb_refl; apply orb_true_r. }
  destruct Hc as [Hc | [c Hc]].
  - exists base; split; [apply Hnone; exact Hc|].
    split.
    + unfold well_formed_question; rewrite Hbt, Hbo, Hbc, Hc.
      cbn [is_str is_str_list andb]; rewrite forallb_is_str_map; reflexivity.
    + destruct (@fix_question_explicit base _ _ Hbt Hbo) as [Hnone' _].
      rewrite Hnone' by (rewrite Hbc; exact Hc).
      rewrite rev_involutive, map_rev_rev, Hback; reflexivity.
  - set (q' := dict_set (lit "category") (VStr (rev c)) base).
    assert (Hqt : dict_get (lit "text") q' = Some (VStr (rev t))).
    { unfold q'; rewrite dict_get_set_other by reflexivity; exact Hbt. }
    assert (Hqo : dict_get (lit "options") q'
                  = Some (VList (map VStr (map (@rev char) os)))).
    { unfold q'; rewrite dict_get_set_other by reflexivity; exact Hbo. }
    assert (Hqc : dict_get (lit "category") q' = Some (VStr (rev c))).
    { unfold q'; apply dict_get_set_same. }
    exists q'; split; [apply Hsome; exact Hc|].
    split.
    + unfold well_formed_question; rewrite Hqt, Hqo, Hqc.
      cbn [is_str is_str_list andb]; rewrite forallb_is_str_map; reflexivity.
    + destruct (@fix_question_explicit q' _ _ Hqt Hqo) as [_ Hsome'].
      rewrite (Hsome' (rev c) Hqc).
      rewrite !rev_involutive, map_rev_rev; f_equal; unfold q'.
      rewrite (@dict_set_comm (lit "text") (lit "category")); [|reflexivity|].
      2:{ exact (@dict_get_mem _ _ _ Hbt). }
      rewrite (@dict_set_comm (lit "options") (lit "category"));
        [|reflexivity|].
      2:{ rewrite dict_mem_set, (@dict_get_mem _ _ _ Hbo); reflexivity. }
      rewrite Hback, dict_set_twice; apply dict_set_same_value; exact Hc.
Qed.

Lemma fix_question_involutive_witness :
  exists q', fix_question sample_question = Ok q' /\
             fix_question q' = Ok sample_question.
Proof.
  destruct (fix_question_involutive sample_question eq_refl)
    as (q' & H1 & _ & H2).
  exists q'; split; [exact H1 | exact H2].
Defined.

(** ** is_reversed_hebrew, case by case *)

Lemma reversed_patterns_nonempty : Forall (fun m => m <> []) reversed_patterns.
Proof. repeat constructor; discriminate. Qed.

(** X4: a string is classified as reversed exactly when it holds no
    known-correct marker and either holds a known-reversed marker or ends,
    once trimmed, in the reversed "during" with at most one of [?], [.],
    [!] after it. *)
Theorem is_reversed_hebrew_iff (s : pystr) :
  is_reversed_hebrew (VStr s) = Ok true <->
  ~ has_marker correct_patterns s /\
  (has_marker reversed_patterns s \/ ends_with_during s).
Proof.
  assert (E : forall b, Ok b = Ok true <-> b = true)
    by (intros b; split; congruence).
  rewrite is_reversed_hebrew_str, E.
  rewrite !andb_true_iff, orb_true_iff, !negb_true_iff.
  rewrite <- !not_true_iff_false, str_eqb_eq.
  rewrite !existsb_str_in, re_search_during_strip.
  split; [tauto|].
  intros [Hc Hr]; split; [split|]; auto.
  destruct Hr as [Hr | Hr].
  - exact (has_marker_nonempty reversed_patterns_nonempty Hr).
  - exact (ends_with_during_nonempty Hr).
Qed.

Lemma is_reversed_hebrew_iff_witness :
  is_reversed_hebrew (VStr (lit "ןיחבמ התא")) = Ok true.
Proof.
  apply is_reversed_hebrew_iff; split.
  - rewrite <- existsb_str_in; discriminate.
  - left; apply existsb_str_in; reflexivity.
Defined.

Lemma any_in_scalar (patterns : list pystr) (v : value) :
  is_scalar v = true -> patterns <> [] -> any_in patterns v = Err TypeError.
Proof.
  destruct patterns as [|p ps]; [congruence|].
  destruct v; try discriminate; reflexivity.
Qed.

(** X5: on a value that is not a string, a list or an object, the
    classifier answers "not reversed" when the value is falsy ([null],
    [false], zero) and raises a [TypeError] when it is truthy ([true], a
    non-zero number, NaN): the first [in] test has nothing to search. *)
Theorem is_reversed_hebrew_scalar (v : value) :
  v = VNone \/ is_scalar v = true ->
  is_reversed_hebrew v = if truthy v then Err TypeError else Ok false.
Proof.
  intros [-> | Hs]; [reflexivity|].
  unfold is_reversed_hebrew; destruct (truthy v); cbn [negb]; [|reflexivity].
  rewrite any_in_scalar; [reflexivity | exact Hs | discriminate].
Qed.

Lemma is_reversed_hebrew_scalar_witness :
  is_reversed_hebrew (VInt 42) = Err TypeError /\
  is_reversed_hebrew (VFloat (S754_zero true)) = Ok false.
Proof.
  split.
  - exact (@is_reversed_hebrew_scalar (VInt 42) (or_intror eq_refl)).
  - exact (@is_reversed_hebrew_scalar (VFloat (S754_zero true))
             (or_intror eq_refl)).
Defined.

Lemma eq_str_true (m : pystr) (v : value) : eq_str m v = true <-> v = VStr m.
Proof.
  destruct v; simpl; try (split; [discriminate | intros H; inversion H]).
  rewrite str_eqb_eq; split; [intros ->; reflexivity|].
  intros H; inversion H; reflexivity.
Qed.

Lemma any_in_container (patterns : list pystr) (v : value) :
  (exists l, v = VList l) \/ (exists d, v = VDict d) ->
  exists b, any_in patterns v = Ok b /\
            (b = true <-> Exists (fun m => holds m v) patterns).
Proof.
  intros Hv; induction patterns as [|p ps IH]; cbn [any_in].
  - exists false; split; [reflexivity|].
    split; [discriminate | intros H; inversion H].
  - destruct IH as (b & Hb & Hiff).
    assert (Hp : exists b0, py_in p v = Ok b0 /\ (b0 = true <-> holds p v)).
    { destruct Hv as [[l ->] | [d ->]]; cbn [py_in holds]; eexists;
        (split; [reflexivity|]); rewrite existsb_exists.
      - split.
        + intros [x [Hin Hx]]; apply eq_str_true in Hx; subst x; exact Hin.
        + intros Hin; exists (VStr p); split; [exact Hin|].
          apply eq_str_true; reflexivity.
      - split.
        + intros [[k x] [Hin Hx]]; apply str_eqb_eq in Hx; simpl in Hx.
          subst k; apply in_map_iff; exists (p, x); auto.
        + intros Hin; apply in_map_iff in Hin as [[k x] [Hk Hin]].
          simpl in Hk; subst k; exists (p, x); split; [exact Hin|].
          apply str_eqb_refl. }
    destruct Hp as (b0 & -> & Hb0); cbn [bind]; destruct b0.
    + exists true; split; [reflexivity|].
      split; [intros _; left; apply Hb0; reflexivity | reflexivity].
    + exists b; split; [exact Hb|]; rewrite Hiff; split.
      * intros H; right; exact H.
      * intros H; inversion H as [? ? Hh | ? ? Hh]; subst; [|exact Hh].
        apply Hb0 in Hh; discriminate.
Qed.

(** X6: on a non-empty list (or object) the markers are compared with the
    elements (or the keys), not searched inside them: the answer is "not
    reversed" when a known-correct marker is an element, "reversed" when
    none is and a known-reversed marker is one, and otherwise the call
    raises an [AttributeError], a list having no [strip]. *)
Theorem is_reversed_hebrew_container (v : value) :
  (exists l, v = VList l) \/ (exists d, v = VDict d) ->
  truthy v = true ->
  (Exists (fun m => holds m v) correct_patterns ->
   is_reversed_hebrew v = Ok false) /\
  (~ Exists (fun m => holds m v) correct_patterns ->
   Exists (fun m => holds m v) reversed_patterns ->
   is_reversed_hebrew v = Ok true) /\
  (~ Exists (fun m => holds m v) correct_patterns ->
   ~ Exists (fun m => holds m v) reversed_patterns ->
   is_reversed_hebrew v = Err AttributeError).
Proof.
  intros Hv Ht; unfold is_reversed_hebrew; rewrite Ht; cbn [negb].
  destruct (any_in_container correct_patterns Hv) as (bc & -> & Hc).
  destruct (any_in_container reversed_patterns Hv) as (br & -> & Hr).
  cbn [bind].
  assert (Hs : py_strip v = Err AttributeError)
    by (destruct Hv as [[l ->] | [d ->]]; reflexivity).
  rewrite Hs; cbn [bind].
  split; [|split].
  - intros H; apply Hc in H; subst bc; reflexivity.
  - intros Hn H; apply Hr in H; subst br.
    destruct bc; [exfalso; apply Hn, Hc; reflexivity | reflexivity].
  - intros Hn Hn'.
    destruct bc; [exfalso; apply Hn, Hc; reflexivity|].
    destruct br; [exfalso; apply Hn', Hr; reflexivity | reflexivity].
Qed.

Lemma is_reversed_hebrew_container_witness :
  is_reversed_hebrew (VList [VStr (lit "תניפס"); VInt 1]) = Ok true /\
  is_reversed_hebrew (VList [VStr (lit " המ תניפס?")]) = Err AttributeError.
Proof.
  split.
  - apply (is_reversed_hebrew_container
             (v := VList [VStr (lit "תניפס"); VInt 1])
             (or_introl (ex_intro _ _ eq_refl)) eq_refl).
    + intros H; repeat (inversion H as [? ? Hh | ? ? Hh]; subst; clear H;
        [simpl in Hh; destruct Hh as [Hh | [Hh | []]]; discriminate Hh
        | rename Hh into H]); inversion H.
    + apply Exists_exists; exists (lit "תניפס"); split; simpl; auto 12.
  - apply (is_reversed_hebrew_container
             (v := VList [VStr (lit " המ תניפס?")])
             (or_introl (ex_intro _ _ eq_refl)) eq_refl).
    + intros H; repeat (inversion H as [? ? Hh | ? ? Hh]; subst; clear H;
        [simpl in Hh; destruct Hh as [Hh | []]; discriminate Hh
        | rename Hh into H]); inversion H.
    + intros H; repeat (inversion H as [? ? Hh | ? ? Hh]; subst; clear H;
        [simpl in Hh; destruct Hh as [Hh | []]; discriminate Hh
        | rename Hh into H]); inversion H.
Defined.

(** ** What fix_question can raise *)



(** X7: [fix_question] raises a [KeyError] only for [text] or [options],
    and only when that field is missing; every other failure comes from
    reversing a value that is neither a string nor a list.  A missing
    [category] raises nothing, and no [AttributeError] is raised. *)
Theorem fix_question_errors (q : record) (e : exn) :
  fix_question q = Err e ->
  (e = KeyError (lit "text") /\ dict_get (lit "text") q = None) \/
  (e = KeyError (lit "options") /\ dict_get (lit "options") q = None) \/
  e = TypeError \/ e = SliceOfDict.
Proof.
  unfold fix_question, getitem, dict_mem.
  destruct (dict_get (lit "text") q) as [t|]; cbn [bind];
    [|intros H; inversion H; auto].
  destruct (reverse_hebrew t) as [t'|e0] eqn:Et; cbn [bind];
    [|apply reverse_hebrew_err in Et; intros H; inversion H; subst; tauto].
  destruct (dict_get (lit "options") q) as [o|]; cbn [bind];
    [|intros H; inversion H; auto].
  destruct (py_iter o) as [os|e0] eqn:Eo; cbn [bind];
    [|apply py_iter_err in Eo; intros H; inversion H; subst; auto].
  destruct (mapM reverse_hebrew os) as [os'|e0] eqn:Eos; cbn [bind];
    [|apply mapM_reverse_err in Eos; intros H; inversion H; subst; tauto].
  destruct (dict_get (lit "category") q) as [c|]; cbn [bind]; [|discriminate].
  destruct (reverse_hebrew c) as [c'|e0] eqn:Ec; cbn [bind]; [discriminate|].
  apply reverse_hebrew_err in Ec; intros H; inversion H; subst; tauto.
Qed.

Lemma fix_question_errors_witness :
  (KeyError (lit "options") = KeyError (lit "text") /\
   dict_get (lit "text") no_options_question = None) \/
  (KeyError (lit "options") = KeyError (lit "options") /\
   dict_get (lit "options") no_options_question = None) \/
  KeyError (lit "options") = TypeError \/
  KeyError (lit "options") = SliceOfDict.
Proof.
  apply (@fix_question_errors no_options_question); reflexivity.
Defined.

(** ** What the driver reports *)

Lemma loop_body_counts (st st' : loop_state) (q : value) :
  loop_body st q = Ok st' ->
  if is_flagged q then
    fixed_count st' = S (fixed_count st) /\
    exists i, record_id q = Some i /\ fixed_ids st' = fixed_ids st ++ [i]
  else
    fixed_count st' = fixed_count st /\ fixed_ids st' = fixed_ids st.
Proof.
  unfold loop_body, is_flagged; destruct q as [| | | | | |d]; try discriminate.
  fold (classify d); intros H.
  bind_ok H; rename a into b; destruct b.
  - bind_ok H; bind_ok H; apply getitem_ok in E1.
    inversion H; subst st'; cbn [fixed_count fixed_ids record_id]; eauto.
  - inversion H; subst st'; cbn [fixed_count fixed_ids]; auto.
Qed.

Lemma foldM_loop_counts (qs : list value) (st st' : loop_state) :
  foldM loop_body st qs = Ok st' ->
  fixed_count st' = fixed_count st + List.length (filter is_flagged qs) /\
  exists ids, fixed_ids st' = fixed_ids st ++ ids /\
              map Some ids = map record_id (filter is_flagged qs).
Proof.
  revert st; induction qs as [|q qs IH]; intros st H; cbn [foldM] in H.
  - inversion H; subst; cbn [filter List.length].
    split; [lia|]; exists []; rewrite app_nil_r; auto.
  - bind_ok H; rename a into st1.
    apply loop_body_counts in E; destruct (IH _ H) as (Hn & ids & Hids & Hmap).
    cbn [filter]; destruct (is_flagged q).
    + destruct E as (Hc & i & Hi & Hst1); cbn [List.length map].
      split; [lia|]; exists (i :: ids); split.
      * rewrite Hids, Hst1, <- app_assoc; reflexivity.
      * cbn [map]; rewrite Hi, Hmap; reflexivity.
    + destruct E as (Hc & Hst1); split; [lia|].
      exists ids; split; [rewrite Hids, Hst1; reflexivity | exact Hmap].
Qed.

(** X8: after a completed run the terminal has two more lines.  The first
    gives the number of records classified as reversed and the size of the
    collection; the second lists the ids of exactly those records, in the
    order of the collection, cut to the first 20 and followed by an ellipsis
    when there are more than 20. *)
Theorem main_report (w w' : world) (qs : list value) :
  file w = VList qs ->
  main w = (w', None) ->
  exists ids,
    map Some ids = map record_id (filter is_flagged qs) /\
    List.length ids <= List.length qs /\
    stdout w' =
    stdout w ++
    [ [ Lit (lit "Fixed "); Fmt (VInt (Z.of_nat (List.length ids)));
        Lit (lit " questions out of ");
        Fmt (VInt (Z.of_nat (List.length qs))) ];
      if 20 <? List.length ids then
        [ Lit (lit "Fixed IDs: "); Fmt (VList (firstn 20 ids));
          Lit (lit "...") ]
      else [ Lit (lit "Fixed IDs: "); Fmt (VList ids) ] ].
Proof.
  intros Hw Hmain.
  destruct (main_completed w Hw Hmain) as (st & Hrun & ->).
  destruct (foldM_loop_counts _ _ Hrun) as (Hn & ids & Hids & Hmap).
  cbn [fixed_count fixed_ids loop_init app Nat.add] in Hn, Hids.
  assert (Hlen : List.length ids = List.length (filter is_flagged qs)).
  { rewrite <- (length_map Some ids), Hmap, length_map; reflexivity. }
  exists ids; split; [exact Hmap|]; split.
  - rewrite Hlen; apply filter_length_le.
  - cbn [stdout]; unfold summary_line, ids_line.
    rewrite Hn, Hids, <- Hlen; reflexivity.
Qed.

Lemma main_report_witness :
  exists w' ids,
    main (mk_world (VList [VDict sample_question; VDict no_text_question])
            [])
    = (w', None) /\
    map Some ids = [Some (VInt 3)] /\
    stdout w' =
    [ [ Lit (lit "Fixed "); Fmt (VInt (Z.of_nat (List.length ids)));
        Lit (lit " questions out of "); Fmt (VInt 2) ];
      if 20 <? List.length ids then
        [ Lit (lit "Fixed IDs: "); Fmt (VList (firstn 20 ids));
          Lit (lit "...") ]
      else [ Lit (lit "Fixed IDs: "); Fmt (VList ids) ] ].
Proof.
  eexists.
  destruct (@main_report
              (mk_world (VList [VDict sample_question;
                                VDict no_text_question]) [])
              _ [VDict sample_question; VDict no_text_question]
              eq_refl eq_refl) as (ids & Hmap & _ & Hout).
  exists ids; split; [reflexivity | split; [exact Hmap | exact Hout]].
Defined.

(** X9: when no record of the collection is classified as reversed and no
    string of it holds a lone surrogate, the run rewrites the file with the
    collection it read, record for record, and reports zero fixed questions
    and an empty list of ids; with a lone surrogate somewhere the write
    stops with a [UnicodeEncodeError], the file cut short and nothing
    printed. *)
Theorem main_clean_collection (w : world) (qs : list value) :
  file w = VList qs ->
  (forall q, In q qs -> exists d, q = VDict d /\ classify d = Ok false) ->
  main w =
  if encodable (VList qs) then
    (mk_world (file w)
       (stdout w ++
        [ [ Lit (lit "Fixed "); Fmt (VInt 0); Lit (lit " questions out of ");
            Fmt (VInt (Z.of_nat (List.length qs))) ];
          [ Lit (lit "Fixed IDs: "); Fmt (VList []) ] ]),
     None)
  else (mk_world Truncated (stdout w), Some UnicodeEncodeError).
Proof.
  intros Hw Hclean.
  assert (Hrun : forall st,
             foldM loop_body st qs =
             Ok (mk_loop_state (fixed_count st) (fixed_questions st ++ qs)
                   (fixed_ids st))).
  { clear Hw; induction qs as [|q qs IH]; intros st; cbn [foldM].
    - rewrite app_nil_r; destruct st; reflexivity.
    - destruct (Hclean q (or_introl eq_refl)) as (d & -> & Hc).
      unfold loop_body at 1; fold (classify d); rewrite Hc; cbn [bind].
      rewrite IH by (intros q' Hq'; apply Hclean; right; exact Hq').
      cbn [fixed_count fixed_questions fixed_ids].
      rewrite <- app_assoc; reflexivity. }
  unfold main, run_loop; rewrite Hw; cbn [py_iter bind].
  rewrite Hrun; cbn [bind fixed_questions loop_init app].
  destruct (encodable (VList qs)); reflexivity.
Qed.

Lemma main_clean_collection_witness :
  main (mk_world (VList [VDict scenario_q2; VDict no_text_question]) [])
  = (mk_world (VList [VDict scenario_q2; VDict no_text_question])
       [ [ Lit (lit "Fixed "); Fmt (VInt 0); Lit (lit " questions out of ");
           Fmt (VInt 2) ];
         [ Lit (lit "Fixed IDs: "); Fmt (VList []) ] ],
     None).
Proof.
  apply (@main_clean_collection
           (mk_world (VList [VDict scenario_q2; VDict no_text_question]) [])
           [VDict scenario_q2; VDict no_text_question] eq_refl).
  intros q [<- | [<- | []]]; eexists; split; reflexivity.
Defined.

(** ** When the run stops *)

Lemma loop_body_not_dict (st : loop_state) (q : value) :
  (forall d, q <> VDict d) -> loop_body st q = Err AttributeError.
Proof.
  intros H; destruct q; try reflexivity; exfalso; eapply H; reflexivity.
Qed.

(** X10: every element of the collection has to be an object.  An element
    of any other kind stops the run, wherever it stands, with the file and
    the terminal as they were; the exception is an [AttributeError] when the
    elements before it went through. *)
Theorem main_non_object_element (w : world) (qs : list value) (q : value) :
  file w = VList qs ->
  In q qs ->
  (forall d, q <> VDict d) ->
  (exists e, main w = (w, Some e)) /\
  (forall before after st,
      qs = before ++ q :: after -> run_loop before = Ok st ->
      main w = (w, Some AttributeError)).
Proof.
  intros Hw Hin Hq; split.
  - destruct (@loop_stops_at q qs) with (st := loop_init) as [e He];
      [|exact Hin|].
    + intros st; exists AttributeError; apply loop_body_not_dict; exact Hq.
    + exists e; apply (main_aborted w Hw He).
  - intros before after st -> Hrun.
    apply (main_aborted w Hw); unfold run_loop in *.
    rewrite foldM_app, Hrun; cbn [bind foldM].
    rewrite loop_body_not_dict by exact Hq; reflexivity.
Qed.

Lemma main_non_object_element_witness :
  main (mk_world (VList [VDict scenario_q2; VStr (lit " המ תניפס?")]) [])
  = (mk_world (VList [VDict scenario_q2; VStr (lit " המ תניפס?")]) [],
     Some AttributeError).
Proof.
  refine (proj2 (@main_non_object_element
                   (mk_world (VList [VDict scenario_q2;
                                     VStr (lit " המ תניפס?")]) [])
                   [VDict scenario_q2; VStr (lit " המ תניפס?")]
                   (VStr (lit " המ תניפס?")) eq_refl _ _)
            [VDict scenario_q2] [] _ eq_refl eq_refl).
  - right; left; reflexivity.
  - intros d; discriminate.
Defined.





(** X12: when the value in the file is not a list, nothing is ever fixed.
    A number, a boolean or [null] stops the run with a [TypeError]; a
    non-empty object or string stops it with an [AttributeError], the loop
    running over keys or characters; an empty object or an empty string is
    overwritten with an empty list, and zero questions out of zero are
    reported. *)
Theorem main_top_level_not_a_list (w : world) (v : value) :
  file w = Json v ->
  (forall l, v <> VList l) ->
  (v = VNone \/ is_scalar v = true ->
   main w = (w, Some TypeError)) /\
  (truthy v = true -> is_scalar v = false ->
   main w = (w, Some AttributeError)) /\
  (truthy v = false -> is_scalar v = false ->
   v <> VNone ->
   main w =
   (mk_world (VList [])
      (stdout w ++
       [ [ Lit (lit "Fixed "); Fmt (VInt 0); Lit (lit " questions out of ");
           Fmt (VInt 0) ];
         [ Lit (lit "Fixed IDs: "); Fmt (VList []) ] ]),
    None)).
Proof.
  intros Hw Hl; unfold main; rewrite Hw; destruct v as [| | | |s|l|d];
    cbn [py_iter bind truthy is_scalar].
  - repeat split; intros; (reflexivity || discriminate || congruence).
  - repeat split; intros; (reflexivity || discriminate || congruence).
  - repeat split; intros; (reflexivity || discriminate || congruence).
  - repeat split; intros; (reflexivity || discriminate || congruence).
  - destruct s as [|c s]; split; [| split | | split]; intros;
      try (reflexivity || discriminate);
      destruct H as [H | H]; discriminate H.
  - exfalso; eapply Hl; reflexivity.
  - destruct d as [|[k x] d]; split; [| split | | split]; intros;
      try (reflexivity || discriminate);
      destruct H as [H | H]; discriminate H.
Qed.

Lemma main_top_level_not_a_list_witness :
  main (mk_world (VDict [(lit "questions", VList [])]) [])
  = (mk_world (VDict [(lit "questions", VList [])]) [], Some AttributeError).
Proof.
  refine (proj1 (proj2 (@main_top_level_not_a_list
                          (mk_world (VDict [(lit "questions", VList [])]) [])
                          (VDict [(lit "questions", VList [])]) eq_refl _))
            eq_refl eq_refl).
  intros l; discriminate.
Defined.

(** ** What can be written back *)

Lemma encodable_VList (l : list value) :
  encodable (VList l) = forallb encodable l.
Proof. reflexivity. Qed.

Lemma forallb_rev_eq {A} (f : A -> bool) (l : list A) :
  forallb f (rev l) = forallb f l.
Proof.
  induction l as [|x l IH]; simpl; [reflexivity|].
  rewrite forallb_app, IH; simpl; rewrite andb_true_r; apply andb_comm.
Qed.

Lemma str_encodable_rev (s : pystr) :
  str_encodable (rev s) = str_encodable s.
Proof. apply forallb_rev_eq. Qed.

Lemma encodable_reversed_strs (os : list pystr) :
  encodable (VList (map VStr (map (@rev char) os)))
  = encodable (VList (map VStr os)).
Proof.
  rewrite !encodable_VList; induction os as [|o os IH]; simpl; [reflexivity|].
  rewrite IH, str_encodable_rev; reflexivity.
Qed.

(** Assigning a value that is as encodable as the one it replaces. *)
Lemma encodable_dict_set (k : pystr) (v v0 : value) (d : record) :
  dict_get k d = Some v0 -> encodable v = encodable v0 ->
  encodable (VDict (dict_set k v d)) = encodable (VDict d).
Proof.
  intros Hget Hv; induction d as [|[k0 x0] d IH]; [discriminate|].
  cbn [dict_get] in Hget; cbn [dict_set].
  destruct (str_eqb k k0).
  - inversion Hget; subst x0; cbn [encodable forallb]; rewrite Hv.
    reflexivity.
  - specialize (IH Hget); cbn [encodable forallb] in *; rewrite IH.
    reflexivity.
Qed.

Lemma fix_question_encodable (d d' : record) :
  well_formed_question d = true -> fix_question d = Ok d' ->
  encodable (VDict d') = encodable (VDict d).
Proof.
  intros Hwf Hfix.
  destruct (well_formed_question_inv d Hwf) as (t & os & Ht & Ho & Hc).
  destruct (@fix_question_explicit d t os Ht Ho) as [Hnone Hsome].
  assert (Hbase :
            encodable
              (VDict (dict_set (lit "options")
                        (VList (map VStr (map (@rev char) os)))
                        (dict_set (lit "text") (VStr (rev t)) d)))
            = encodable (VDict d)).
  { rewrite (@encodable_dict_set (lit "options") _ (VList (map VStr os))).
    - apply (@encodable_dict_set (lit "text") _ (VStr t)); [exact Ht|].
      apply str_encodable_rev.
    - rewrite dict_get_set_other by reflexivity; exact Ho.
    - apply encodable_reversed_strs. }
  destruct Hc as [Hc | [c Hc]].
  - rewrite (Hnone Hc) in Hfix; inversion Hfix; subst d'; exact Hbase.
  - rewrite (Hsome c Hc) in Hfix; inversion Hfix; subst d'.
    rewrite (@encodable_dict_set (lit "category") _ (VStr c));
      [exact Hbase | | apply str_encodable_rev].
    rewrite !dict_get_set_other by reflexivity; exact Hc.
Qed.

(** On a collection of the data model the loop goes through, and what it
    has gathered can be written exactly when the collection could. *)
Lemma foldM_loop_encodable (qs : list value) (st : loop_state) :
  forallb well_formed_record qs = true ->
  exists st', foldM loop_body st qs = Ok st' /\
              encodable (VList (fixed_questions st'))
              = encodable (VList (fixed_questions st)) &&
                encodable (VList qs).
Proof.
  revert st; induction qs as [|q qs IH]; intros st Hwf.
  - exists st; split; [reflexivity|].
    rewrite (encodable_VList []); simpl; rewrite andb_true_r; reflexivity.
  - cbn [forallb] in Hwf; apply andb_true_iff in Hwf as [Hq Hqs].
    destruct (loop_body_total st q Hq) as [st1 Hst1].
    destruct (loop_body_ok _ _ Hst1) as (q' & (d & -> & Hr) & _ & Hfq).
    destruct (IH st1 Hqs) as (st' & Hrun & Henc).
    exists st'; split; [cbn [foldM]; rewrite Hst1; exact Hrun|].
    rewrite Henc, Hfq, !encodable_VList, forallb_app.
    cbn [forallb]; rewrite andb_true_r, <- andb_assoc; f_equal; f_equal.
    destruct Hr as [[_ ->] | [_ (d' & Hfix & ->)]]; [reflexivity|].
    cbn [well_formed_record] in Hq; apply andb_true_iff in Hq as [Hq _].
    exact (fix_question_encodable d Hq Hfix).
Qed.

Lemma main_written (w : world) (qs : list value) (st : loop_state) :
  file w = VList qs -> run_loop qs = Ok st ->
  main w =
  if encodable (VList (fixed_questions st)) then
    (mk_world (VList (fixed_questions st))
       (stdout w ++ [summary_line st (List.length qs); ids_line st]),
     None)
  else (mk_world Truncated (stdout w), Some UnicodeEncodeError).
Proof.
  unfold main; intros Hw Hrun; rewrite Hw; cbn [py_iter bind].
  rewrite Hrun; reflexivity.
Qed.

(** C7, as stated, fails: a collection of one record of the data model
    whose text holds a lone surrogate goes through the loop, and the write
    stops on it; the file is cut short and holds no collection at all. *)
Lemma surrogate_collection_is_cut_short :
  forallb well_formed_record [VDict surrogate_question] = true /\
  main (mk_world (VList [VDict surrogate_question]) [])
  = (mk_world Truncated [], Some UnicodeEncodeError) /\
  ~ (exists w' out,
        main (mk_world (VList [VDict surrogate_question]) []) = (w', None) /\
        file w' = VList out /\ List.length out = 1).
Proof.
  split; [reflexivity | split; [reflexivity|]].
  intros (w' & out & H & _); vm_compute in H; discriminate H.
Qed.

(** C7, amended: a completed run on a collection of N records has written
    N records, and the record at each position is the input record of that
    position or its fixed copy, with the same [id]; on a collection of
    records of the data model in which no string holds a lone surrogate the
    run completes. *)
Theorem order_and_count_preserved (w : world) (qs : list value) :
  file w = VList qs ->
  (forall w', main w = (w', None) ->
     exists out, file w' = VList out /\
       List.length out = List.length qs /\
       forall i q, nth_error qs i = Some q ->
         exists q', nth_error out i = Some q' /\
                    record_id q' = record_id q /\ routed q q') /\
  (forallb well_formed_record qs = true -> encodable (VList qs) = true ->
   exists w', main w = (w', None)).
Proof.
  intros Hw; split.
  - intros w' Hmain.
    destruct (main_completed w Hw Hmain) as (st & Hrun & ->).
    destruct (foldM_loop_ok _ _ Hrun) as (out & Hout & Hall).
    cbn [fixed_questions loop_init app] in Hout.
    exists out; cbn [file]; rewrite Hout; split; [reflexivity|].
    split; [symmetry; eapply Forall2_length; exact Hall|].
    intros i q Hq.
    destruct (Forall2_nth_error Hall _ Hq) as (q' & Hq' & Hr & Hid); eauto.
  - intros Hwf Henc.
    destruct (foldM_loop_encodable qs loop_init Hwf) as (st & Hst & Hst').
    assert (Hok : encodable (VList (fixed_questions st)) = true)
      by (rewrite Hst', Henc; reflexivity).
    rewrite (main_written w Hw Hst), Hok; eauto.
Qed.

Lemma order_and_count_preserved_witness :
  exists w',
    main (mk_world (VList [VDict sample_question;
                           VDict (scenario_q1_with [lit "א"])]) [])
    = (w', None) /\
    exists out, file w' = VList out /\ List.length out = 2.
Proof.
  destruct (@order_and_count_preserved
              (mk_world (VList [VDict sample_question;
                                VDict (scenario_q1_with [lit "א"])]) [])
              [VDict sample_question; VDict (scenario_q1_with [lit "א"])]
              eq_refl) as [Hout Htotal].
  destruct (Htotal eq_refl eq_refl) as [w' Hw'].
  exists w'; split; [exact Hw'|].
  destruct (Hout w' Hw') as (out & Hfile & Hlen & _).
  exists out; split; [exact Hfile | exact Hlen].
Defined.

(** ** The end-to-end scenario, with options *)

Lemma encodable_strs (os : list pystr) :
  forallb str_encodable os = true -> encodable (VList (map VStr os)) = true.
Proof.
  rewrite encodable_VList; induction os as [|o os IH]; simpl; [reflexivity|].
  rewrite andb_true_iff; intros [-> H]; exact (IH H).
Qed.

Lemma scenario_output_encodable (opts : list pystr) :
  forallb str_encodable opts = true ->
  encodable
    (VList [ VDict [ (lit "id", VInt 1);
                     (lit "text", VStr (lit "?יכולת מה "));
                     (lit "options",
                      VList (map VStr (map (@rev char) opts))) ];
             VDict scenario_q2 ]) = true.
Proof.
  intros H.
  assert (Ho : encodable (VList (map VStr (map (@rev char) opts))) = true)
    by (rewrite encodable_reversed_strs; apply encodable_strs; exact H).
  set (o := VList (map VStr (map (@rev char) opts))) in *.
  change (true && (true && (encodable o && true) && true) = true).
  rewrite Ho; reflexivity.
Qed.

(** C3, amended: when the first record also has [options], a list of
    strings none of which holds a lone surrogate, the run classifies only
    record 1 as reversed, writes record 1 fixed and record 2 as it was,
    prints "Fixed 1 questions out of 2" and reports the fixed ids [[1]]. *)
Theorem end_to_end_scenario (opts : list pystr) (printed : list line) :
  forallb str_encodable opts = true ->
  classify (scenario_q1_with opts) = Ok true /\
  classify scenario_q2 = Ok false /\
  main (mk_world (VList [VDict (scenario_q1_with opts); VDict scenario_q2])
          printed)
  = (mk_world
       (VList [ VDict [ (lit "id", VInt 1);
                        (lit "text", VStr (lit "?יכולת מה "));
                        (lit "options",
                         VList (map VStr (map (@rev char) opts))) ];
                VDict scenario_q2 ])
       (printed ++ [scenario_summary; scenario_ids]),
     None) /\
  render scenario_summary = Some (lit "Fixed 1 questions out of 2") /\
  render scenario_ids = Some (lit "Fixed IDs: [1]").
Proof.
  intros Henc.
  split; [reflexivity | split; [reflexivity|]].
  split; [|split; reflexivity].
  assert (Hrun :
            run_loop [VDict (scenario_q1_with opts); VDict scenario_q2] =
            Ok (mk_loop_state 1
                  [ VDict [ (lit "id", VInt 1);
                            (lit "text", VStr (lit "?יכולת מה "));
                            (lit "options",
                             VList (map VStr (map (@rev char) opts))) ];
                    VDict scenario_q2 ]
                  [VInt 1])).
  { unfold run_loop; cbn [foldM]; unfold loop_body at 1.
    change (is_reversed_hebrew
              (get_default (scenario_q1_with opts) (lit "text") (VStr [])))
      with (Ok true).
    cbn [bind]; rewrite fix_scenario_q1; cbn [bind].
    reflexivity. }
  rewrite (@main_written
             (mk_world (VList [VDict (scenario_q1_with opts);
                               VDict scenario_q2]) printed)
             _ _ eq_refl Hrun); cbn [fixed_questions].
  rewrite (scenario_output_encodable opts Henc); reflexivity.
Qed.

Lemma end_to_end_scenario_witness :
  main (mk_world (VList [VDict (scenario_q1_with [lit "ןכ"; lit "אל"]);
                         VDict scenario_q2]) [])
  = (mk_world
       (VList [ VDict [ (lit "id", VInt 1);
                        (lit "text", VStr (lit "?יכולת מה "));
                        (lit "options",
                         VList [VStr (lit "כן"); VStr (lit "לא")]) ];
                VDict scenario_q2 ])
       [scenario_summary; scenario_ids],
     None).
Proof.
  exact (proj1 (proj2 (proj2 (@end_to_end_scenario [lit "ןכ"; lit "אל"] []
                                eq_refl)))).
Defined.

(** ** The write that stops part-way *)

(** X13: on a collection of records of the data model in which some
    string holds a lone surrogate, the loop goes through and the write
    stops with a [UnicodeEncodeError]: the file is left cut short, no longer
    JSON, and nothing is printed. *)
Theorem main_write_failure (w : world) (qs : list value) :
  file w = VList qs ->
  forallb well_formed_record qs = true ->
  encodable (VList qs) = false ->
  main w = (mk_world Truncated (stdout w), Some UnicodeEncodeError).
Proof.
  intros Hw Hwf Henc.
  destruct (foldM_loop_encodable qs loop_init Hwf) as (st & Hst & Hst').
  assert (Hno : encodable (VList (fixed_questions st)) = false)
    by (rewrite Hst', Henc; apply andb_false_r).
  rewrite (main_written w Hw Hst), Hno; reflexivity.
Qed.

Lemma main_write_failure_witness :
  main (mk_world (VList [VDict sample_question; VDict surrogate_question]) [])
  = (mk_world Truncated [], Some UnicodeEncodeError).
Proof.
  exact (@main_write_failure
           (mk_world (VList [VDict sample_question; VDict surrogate_question]) [])
           [VDict sample_question; VDict surrogate_question]
           eq_refl eq_refl eq_refl).
Defined.

(** ** A missing field, and what is raised first *)

(** C8, as stated, fails: on a record without [options] whose [text] is a
    number [fix_question] raises a [TypeError], no missing-field error; and
    a record without [options] whose [text] is an object with a
    known-reversed marker as a key is classified as reversed and stops the
    run on the error of slicing a dict. *)
Lemma missing_options_other_errors :
  dict_get (lit "options") number_text_question = None /\
  fix_question number_text_question = Err TypeError /\
  dict_get (lit "options") dict_text_question = None /\
  classify dict_text_question = Ok true /\
  main (mk_world (VList [VDict dict_text_question]) [])
  = (mk_world (VList [VDict dict_text_question]) [], Some SliceOfDict).
Proof. repeat split. Qed.

Lemma classify_true_has_text (d : record) :
  classify d = Ok true -> exists t, dict_get (lit "text") d = Some t.
Proof.
  intros H; destruct (dict_get (lit "text") d) as [t|] eqn:E; [eauto|].
  rewrite (classify_missing_text d E) in H; discriminate H.
Qed.

Lemma fix_question_without_options (q : record) (t : value) :
  dict_get (lit "text") q = Some t ->
  dict_get (lit "options") q = None ->
  fix_question q =
  match reverse_hebrew t with
  | Ok _ => Err (KeyError (lit "options"))
  | Err e => Err e
  end.
Proof.
  intros Ht Ho; unfold fix_question, getitem; rewrite Ht, Ho; cbn [bind].
  destruct (reverse_hebrew t); reflexivity.
Qed.

(** C8, amended: [fix_question] raises a [KeyError] on [text] on a record
    without [text]; on a record with [text] and without [options] it raises
    a [KeyError] on [options] when the text can be reversed (a string or a
    list) and otherwise the error of reversing the text, which comes first.
    In the driver a record classified as reversed always has [text]; one
    without [options] stops the run, wherever it stands, with the file and
    the terminal untouched, and on that same error when the records before
    it went through. *)
Theorem missing_field_aborts :
  (forall q, dict_get (lit "text") q = None ->
             fix_question q = Err (KeyError (lit "text"))) /\
  (forall q t, dict_get (lit "text") q = Some t ->
               dict_get (lit "options") q = None ->
               fix_question q =
               match reverse_hebrew t with
               | Ok _ => Err (KeyError (lit "options"))
               | Err e => Err e
               end) /\
  (forall d, classify d = Ok true ->
             exists t, dict_get (lit "text") d = Some t) /\
  (forall w qs d,
      file w = VList qs -> In (VDict d) qs -> classify d = Ok true ->
      dict_get (lit "options") d = None ->
      exists e, main w = (w, Some e)) /\
  (forall w before d after st t,
      file w = VList (before ++ VDict d :: after) ->
      run_loop before = Ok st ->
      classify d = Ok true ->
      dict_get (lit "text") d = Some t ->
      dict_get (lit "options") d = None ->
      main w = (w, Some match reverse_hebrew t with
                        | Ok _ => KeyError (lit "options")
                        | Err e => e
                        end)).
Proof.
  split; [exact fix_question_missing_text|].
  split; [exact fix_question_without_options|].
  split; [exact classify_true_has_text|].
  split.
  - intros w qs d Hw Hin Hc Ho.
    destruct (fix_question_needs_fields d (or_intror Ho)) as [e0 He0].
    destruct (@loop_stops_at (VDict d) qs) with (st := loop_init)
      as [e He]; [|exact Hin|].
    + intros st; exists e0; apply loop_body_fix_fails; assumption.
    + exists e; apply (main_aborted w Hw He).
  - intros w before d after st t Hw Hrun Hc Ht Ho.
    apply (main_aborted w Hw); unfold run_loop in *.
    rewrite foldM_app, Hrun; cbn [bind foldM].
    pose proof (fix_question_without_options d Ht Ho) as Hfix.
    destruct (reverse_hebrew t) as [t'|e0];
      rewrite (@loop_body_fix_fails st d _ Hc Hfix); reflexivity.
Qed.

Lemma missing_field_aborts_witness :
  main (mk_world (VList [VDict scenario_q2; VDict no_options_question;
                         VDict sample_question]) [])
  = (mk_world (VList [VDict scenario_q2; VDict no_options_question;
                      VDict sample_question]) [],
     Some (KeyError (lit "options"))).
Proof.
  refine (proj2 (proj2 (proj2 (proj2 missing_field_aborts)))
            (mk_world _ []) [VDict scenario_q2] no_options_question
            [VDict sample_question] _ (VStr (lit " ימ לבוקה?"))
            eq_refl _ eq_refl eq_refl eq_refl).
  reflexivity.
Defined.

(** ** Trimming a reversed string *)

Lemma lstrip_all_spaces (b : pystr) :
  forallb is_space b = true -> lstrip b = [].
Proof.
  induction b as [|c b IH]; simpl; [reflexivity|].
  rewrite andb_true_iff; intros [-> H]; exact (IH H).
Qed.

Lemma lstrip_app_spaces (a x : pystr) :
  forallb is_space a = true -> lstrip (a ++ x) = lstrip x.
Proof.
  induction a as [|c a IH]; simpl; [reflexivity|].
  rewrite andb_true_iff; intros [-> H]; exact (IH H).
Qed.

Lemma lstrip_split (s : pystr) :
  exists a, s = a ++ lstrip s /\ forallb is_space a = true.
Proof.
  induction s as [|c s (a & E & Ha)]; simpl; [exists []; auto|].
  destruct (is_space c) eqn:Ec.
  - exists (c :: a); simpl; rewrite Ec, Ha, <- E; auto.
  - exists []; auto.
Qed.

Lemma edges_ok_rev (m : pystr) : edges_ok m -> edges_ok (rev m).
Proof. unfold edges_ok; rewrite rev_involutive; tauto. Qed.

Lemma lstrip_edge (m : pystr) :
  match m with
  | [] => True
  | c :: _ => is_space c = false
  end -> lstrip m = m.
Proof. destruct m as [|c m]; simpl; [reflexivity | intros ->; reflexivity]. Qed.

Lemma strip_decomp (a m b : pystr) :
  forallb is_space a = true -> forallb is_space b = true -> edges_ok m ->
  strip (a ++ m ++ b) = m.
Proof.
  intros Ha Hb [Hhead Hlast]; unfold strip, rstrip.
  rewrite lstrip_app_spaces by exact Ha.
  destruct m as [|c m].
  - simpl app; rewrite (@lstrip_all_spaces b Hb); reflexivity.
  - assert (E : lstrip ((c :: m) ++ b) = (c :: m) ++ b)
      by (apply lstrip_edge; exact Hhead).
    rewrite E, rev_app_distr, lstrip_app_spaces
      by (rewrite forallb_rev_eq; exact Hb).
    rewrite lstrip_edge by exact Hlast; apply rev_involutive.
Qed.

Lemma strip_exists (s : pystr) :
  exists a b, s = a ++ strip s ++ b /\
              forallb is_space a = true /\ forallb is_space b = true /\
              edges_ok (strip s).
Proof.
  destruct (lstrip_split s) as (a & Es & Ha).
  destruct (lstrip_split (rev (lstrip s))) as (b & Eb & Hb).
  unfold strip, rstrip; set (t := lstrip (rev (lstrip s))) in *.
  assert (El : lstrip s = rev t ++ rev b).
  { rewrite <- rev_app_distr, <- Eb, rev_involutive; reflexivity. }
  exists a, (rev b); split; [rewrite <- El; exact Es|].
  split; [exact Ha|]; split; [rewrite forallb_rev_eq; exact Hb|].
  split.
  - pose proof (lstrip_head s) as Hh; rewrite El in Hh.
    destruct (rev t); [exact I | exact Hh].
  - rewrite rev_involutive; unfold t; apply lstrip_head.
Qed.

(** Trimming and reversing commute. *)
Lemma strip_rev (s : pystr) : strip (rev s) = rev (strip s).
Proof.
  destruct (strip_exists s) as (a & b & E & Ha & Hb & Hm).
  rewrite E at 1; rewrite !rev_app_distr, <- app_assoc.
  apply strip_decomp; [| | apply edges_ok_rev; exact Hm];
    rewrite forallb_rev_eq; assumption.
Qed.

Lemma ends_with_rev (p s : pystr) :
  ends_with p (rev s) <-> begins_with (rev p) s.
Proof.
  unfold ends_with, begins_with; split.
  - intros [a E]; exists (rev a).
    rewrite <- rev_app_distr, <- E, rev_involutive; reflexivity.
  - intros [b ->]; exists (rev b).
    rewrite rev_app_distr, rev_involutive; reflexivity.
Qed.

Lemma ends_with_during_rev (s : pystr) :
  ends_with_during (rev s) <-> begins_with_during s.
Proof.
  unfold ends_with_during, begins_with_during.
  rewrite strip_rev, ends_with_rev.
  split; (intros [H | [c [Hc H]]]; [left; exact H | right; exists c]);
    (split; [exact Hc|]).
  - apply ends_with_rev in H; rewrite rev_app_distr in H; exact H.
  - apply ends_with_rev; rewrite rev_app_distr; exact H.
Qed.

Lemma has_marker_rev_iff (markers : list pystr) (s : pystr) :
  has_marker (map (@rev char) markers) s <-> has_marker markers (rev s).
Proof.
  split; [apply has_marker_rev|].
  unfold has_marker; rewrite !Exists_exists; intros [m [Hin Hs]].
  exists (rev m); split; [apply in_map; exact Hin|].
  apply substring_rev in Hs; rewrite rev_involutive in Hs; exact Hs.
Qed.

(** When a string is classified as not reversed. *)
Lemma is_reversed_hebrew_false_iff (s : pystr) :
  is_reversed_hebrew (VStr s) = Ok false <->
  has_marker correct_patterns s \/
  (~ has_marker reversed_patterns s /\ ~ ends_with_during s).
Proof.
  assert (E : forall b, Ok b = Ok false <-> b = false)
    by (intros b; split; congruence).
  rewrite is_reversed_hebrew_str, E.
  rewrite <- !existsb_str_in, <- re_search_during_strip.
  destruct (existsb (fun p => str_in p s) correct_patterns) eqn:Hc.
  - rewrite andb_false_r; simpl; tauto.
  - destruct (existsb (fun p => str_in p s) reversed_patterns) eqn:Hr.
    + assert (Hne : s <> []).
      { apply (has_marker_nonempty reversed_patterns_nonempty).
        apply existsb_str_in; exact Hr. }
      destruct s; [congruence|]; simpl.
      split; [discriminate | intros [H | [H _]]; congruence].
    + destruct (re_search_during (strip s)) eqn:Hd.
      * assert (Hne : s <> []).
        { apply ends_with_during_nonempty, re_search_during_strip.
          exact Hd. }
        destruct s; [congruence|]; simpl.
        split; [discriminate | intros [H | [_ H]]; congruence].
      * rewrite andb_false_r; split; [|reflexivity].
        intros _; right; split; discriminate.
Qed.

(** C2, amended: on a question of the data model (in particular one whose
    text is classified as reversed) [fix_question] returns a record whose
    text is the reversal of the input's, and that text is classified as not
    reversed exactly when the input text holds the mirror image of a
    known-correct marker, or holds no mirror image of a known-reversed
    marker and does not begin, once trimmed, with "during" as correctly
    written after at most one of [?], [.], [!]. *)
Theorem fix_resolves_exactly_when (q : record) (t : pystr) :
  well_formed_question q = true ->
  dict_get (lit "text") q = Some (VStr t) ->
  exists q',
    fix_question q = Ok q' /\
    dict_get (lit "text") q' = Some (VStr (rev t)) /\
    (is_reversed_hebrew (VStr (rev t)) = Ok false <->
     has_marker (map (@rev char) correct_patterns) t \/
     (~ has_marker (map (@rev char) reversed_patterns) t /\
      ~ begins_with_during t)).
Proof.
  intros Hwf Ht.
  destruct (fix_question_total q Hwf) as [q' Hq']; exists q'.
  split; [exact Hq'|].
  destruct (fix_question_ok q Hq')
    as (t0 & t' & o & os & os' & Ht0 & Hr & _ & _ & _ & Ht' & _).
  rewrite Ht in Ht0; inversion Ht0; subst t0.
  cbn [reverse_hebrew] in Hr; inversion Hr; subst t'.
  split; [exact Ht'|].
  rewrite is_reversed_hebrew_false_iff, !has_marker_rev_iff.
  rewrite ends_with_during_rev; reflexivity.
Qed.

Lemma fix_resolves_exactly_when_witness :
  exists q', fix_question sample_question = Ok q' /\
             dict_get (lit "text") q' = Some (VStr (lit "?ספינת מה ")) /\
             is_reversed_hebrew (VStr (lit "?ספינת מה ")) = Ok false.
Proof.
  destruct (@fix_resolves_exactly_when sample_question (lit " המ תניפס?")
              eq_refl eq_refl) as (q' & Hfix & Htext & Hiff).
  exists q'; split; [exact Hfix | split; [exact Htext|]].
  apply Hiff; left.
  apply question_words_mirrored, existsb_str_in; reflexivity.
Defined.
